(** * Developer-Project-Validator: the tolerant parsing pipeline of [app.py]

    A shallow embedding of the response-parsing, salvage, validation and
    retry code of [src/app.py], and the properties of the specification
    stated over it.

    Python strings are sequences of Unicode code points ([list N]); Python
    values are the JSON-shaped tree [pyval]; the dictionary that
    [_validate_response] mutates lives in an object store, so that aliasing
    is visible; exceptions are explicit results. *)

From Stdlib Require Import ZArith NArith List Bool Lia String Ascii QArith.
From Stdlib Require DecimalString.
From stdpp Require Import base option list gmap.

Set Default Proof Using "Type".
Set Warnings "-register-all".
Open Scope nat_scope.

(* ===================================================================== *)
(** * Part I: definitions                                                 *)
(* ===================================================================== *)

(** ** Strings *)

(** A Python [str]: its code points, in order. *)
Abbreviation pystr := (list N).

(** An ASCII literal of the source as a [pystr]. *)
Definition py (s : string) : pystr :=
  map N_of_ascii (list_ascii_of_string s).

Definition pystr_eqb (a b : pystr) : bool := bool_decide (a = b).

(** [str.isspace] on one code point, which is also what [\s] matches in a
    [str] pattern: the characters of bidirectional type WS, B or S and of
    category Zs. *)
Definition isspace (c : N) : bool :=
  ((9 <=? c) && (c <=? 13) || (28 <=? c) && (c <=? 32) || (c =? 133)
   || (c =? 160) || (c =? 5760) || (8192 <=? c) && (c <=? 8202)
   || (c =? 8232) || (c =? 8233) || (c =? 8239) || (c =? 8287)
   || (c =? 12288))%N.

(** Membership of a code point in the argument of [strip(chars)]. *)
Definition in_chars (chars : pystr) (c : N) : bool :=
  existsb (N.eqb c) chars.

Fixpoint drop_while (p : N -> bool) (s : pystr) : pystr :=
  match s with
  | [] => []
  | c :: s' => if p c then drop_while p s' else s
  end.

(** [s.lstrip(...)], [s.rstrip(...)] and [s.strip(...)] for the set of
    characters [p]. *)
Definition lstrip_by (p : N -> bool) (s : pystr) : pystr := drop_while p s.

Fixpoint rstrip_by (p : N -> bool) (s : pystr) : pystr :=
  match s with
  | [] => []
  | c :: s' =>
      match rstrip_by p s' with
      | [] => if p c then [] else [c]
      | r => c :: r
      end
  end.

Definition strip_by (p : N -> bool) (s : pystr) : pystr :=
  lstrip_by p (rstrip_by p s).

(** [s.strip()] *)
Definition strip (s : pystr) : pystr := strip_by isspace s.

(** [s[a:b]] for [0 <= a] and [0 <= b]. *)
Definition slice (a b : nat) (s : pystr) : pystr := take (b - a) (drop a s).

(** [s.startswith(pre)] *)
Fixpoint starts_with (pre s : pystr) : bool :=
  match pre, s with
  | [], _ => true
  | _ :: _, [] => false
  | a :: pre', b :: s' => (a =? b)%N && starts_with pre' s'
  end.

(** [s.find(sub)], [None] for -1. *)
Fixpoint find_from (sub s : pystr) (i : nat) : option nat :=
  if starts_with sub s then Some i
  else match s with
       | [] => None
       | _ :: s' => find_from sub s' (S i)
       end.

Definition find (sub s : pystr) : option nat := find_from sub s 0.

(** [sub in s] for strings. *)
Definition is_substring (sub s : pystr) : bool :=
  match find sub s with Some _ => true | None => false end.

(** [sep.join(parts)] *)
Fixpoint join (sep : pystr) (parts : list pystr) : pystr :=
  match parts with
  | [] => []
  | [p] => p
  | p :: ps => p ++ sep ++ join sep ps
  end.

(** [val.replace(old, new)] where [old] is a backslash followed by a double
    quote and [new] the double quote alone: every occurrence is replaced,
    scanning left to right. *)
Fixpoint unescape_quotes (s : pystr) : pystr :=
  match s with
  | [] => []
  | c :: s' =>
      match s' with
      | d :: s'' =>
          if ((c =? 92) && (d =? 34))%N
          then 34%N :: unescape_quotes s''
          else c :: unescape_quotes s'
      | [] => [c]
      end
  end.

(** ** Regular expressions

    The patterns of the source use literals, character classes, optional
    parts, greedy and lazy repetition of one character class, one capture
    group and the anchors [^] and [$].  [match_re] is the backtracking
    matcher of [re] on that fragment, in continuation-passing style: the
    alternatives are tried in the order [re] tries them, and the first
    success is the match. *)

Inductive regex :=
| Eps
| Lit (c : N)
| Cls (p : N -> bool)
| Seq (r1 r2 : regex)
| Opt (r : regex)
| Star (p : N -> bool)
| StarLazy (p : N -> bool)
| Plus (p : N -> bool)
| Group (r : regex)
| Bol
| Eol.

(** A match object: [m.start()], [m.end()] and the span of group 1. *)
Record rmatch := {
  m_start : nat;
  m_end : nat;
  m_group : option (nat * nat);
}.

Section Matcher.
Context {R : Type}.

(** [p*], longest first. *)
Fixpoint star_greedy (p : N -> bool) (s : pystr) (i : nat)
    (k : pystr -> nat -> option R) : option R :=
  match s with
  | c :: s' =>
      if p c then
        match star_greedy p s' (S i) k with
        | Some x => Some x
        | None => k s i
        end
      else k s i
  | [] => k s i
  end.

(** [p*?], shortest first. *)
Fixpoint star_lazy (p : N -> bool) (s : pystr) (i : nat)
    (k : pystr -> nat -> option R) : option R :=
  match k s i with
  | Some x => Some x
  | None =>
      match s with
      | c :: s' => if p c then star_lazy p s' (S i) k else None
      | [] => None
      end
  end.

(** [match_re r s i g k]: match [r] at index [i], where [s] is the text
    from [i] on and [g] the span of group 1 so far; [k] matches the rest of
    the pattern. *)
Fixpoint match_re (r : regex) (s : pystr) (i : nat) (g : option (nat * nat))
    (k : pystr -> nat -> option (nat * nat) -> option R) : option R :=
  match r with
  | Eps => k s i g
  | Lit c =>
      match s with
      | x :: s' => if (x =? c)%N then k s' (S i) g else None
      | [] => None
      end
  | Cls p =>
      match s with
      | x :: s' => if p x then k s' (S i) g else None
      | [] => None
      end
  | Seq r1 r2 => match_re r1 s i g (fun s1 i1 g1 => match_re r2 s1 i1 g1 k)
  | Opt r1 =>
      match match_re r1 s i g k with
      | Some x => Some x
      | None => k s i g
      end
  | Star p => star_greedy p s i (fun s1 i1 => k s1 i1 g)
  | StarLazy p => star_lazy p s i (fun s1 i1 => k s1 i1 g)
  | Plus p =>
      match s with
      | x :: s' =>
          if p x then star_greedy p s' (S i) (fun s1 i1 => k s1 i1 g)
          else None
      | [] => None
      end
  | Group r1 => match_re r1 s i g (fun s1 i1 _ => k s1 i1 (Some (i, i1)))
  | Bol => match i with 0 => k s i g | S _ => None end
  | Eol =>
      match s with
      | [] => k s i g
      | [c] => if (c =? 10)%N then k s i g else None
      | _ => None
      end
  end.
End Matcher.

(** [pattern.match(text, i)] on the text from [i] on. *)
Definition match_at (r : regex) (s : pystr) (i : nat)
    : option (nat * option (nat * nat)) :=
  match_re r s i None (fun _ e g => Some (e, g)).

(** [re.search]: the match at the leftmost index that has one. *)
Fixpoint search_from (r : regex) (s : pystr) (i : nat) : option rmatch :=
  match match_at r s i with
  | Some (e, g) => Some {| m_start := i; m_end := e; m_group := g |}
  | None =>
      match s with
      | [] => None
      | _ :: s' => search_from r s' (S i)
      end
  end.

Definition re_search (r : regex) (text : pystr) : option rmatch :=
  search_from r text 0.

(** [m.group(1)] of a match in [text]. *)
Definition group1 (text : pystr) (m : rmatch) : pystr :=
  match m_group m with
  | Some (a, b) => slice a b text
  | None => []
  end.

(** [re.findall] for a pattern with one group whose matches are not empty:
    group 1 of the successive matches, each search resuming where the
    previous match ended. *)
Fixpoint findall_from (fuel : nat) (r : regex) (text : pystr) (i : nat)
    : list pystr :=
  match fuel with
  | 0 => []
  | S fuel' =>
      match search_from r (drop i text) i with
      | Some m => group1 text m :: findall_from fuel' r text (Nat.max (m_end m) (S i))
      | None => []
      end
  end.

Definition re_findall (r : regex) (text : pystr) : list pystr :=
  findall_from (S (length text)) r text 0.

(** [re.split] for a pattern without group whose matches are not empty:
    the pieces of [text] between the successive matches. *)
Fixpoint split_from (fuel : nat) (r : regex) (text : pystr) (last i : nat)
    : list pystr :=
  match fuel with
  | 0 => [drop last text]
  | S fuel' =>
      match search_from r (drop i text) i with
      | Some m =>
          slice last (m_start m) text
            :: split_from fuel' r text (m_end m) (Nat.max (m_end m) (S i))
      | None => [drop last text]
      end
  end.

Definition re_split (r : regex) (text : pystr) : list pystr :=
  split_from (S (length text)) r text 0 0.

(** A sequence of patterns, and a literal string as a pattern. *)
Definition seq_re (rs : list regex) : regex := foldr Seq Eps rs.
Definition lits (s : pystr) : regex := seq_re (map Lit s).

Definition any_char (_ : N) : bool := true.
Definition one_of (cs : list N) (c : N) : bool := existsb (N.eqb c) cs.

(** The double quote, written by its code point. *)
Definition dquote : N := 34%N.

(** [r'```(?:json)?\s*([\s\S]*?)\s*```'] under [re.IGNORECASE]: a letter of
    [json] also matches its other case, and [s] the long s (U+017F). *)
Definition fence_re : regex :=
  seq_re [lits (py "```");
          Opt (seq_re [Cls (one_of [106; 74]); Cls (one_of [115; 83; 383]);
                       Cls (one_of [111; 79]); Cls (one_of [110; 78])]%N);
          Star isspace;
          Group (StarLazy any_char);
          Star isspace;
          lits (py "```")].

(** [rf'\x22{re.escape(key)}\x22\s*:'], the double quote written [\x22]
    here.  The keys are letters and underscores, which [re.escape] leaves as
    they are. *)
Definition key_pattern (key : pystr) : regex :=
  seq_re [Lit dquote; lits key; Lit dquote; Star isspace; Lit 58%N].

(** [rf',?\s*\x22{re.escape(next_key)}\x22\s*:'] *)
Definition next_key_pattern (next_key : pystr) : regex :=
  seq_re [Opt (Lit 44%N); Star isspace;
          Lit dquote; lits next_key; Lit dquote; Star isspace; Lit 58%N].

(** [r'\[(.*?)]'] under [re.DOTALL] *)
Definition array_re : regex :=
  seq_re [Lit 91%N; Group (StarLazy any_char); Lit 93%N].

(** [r'\x22([^\x22\n]+)\x22'] *)
Definition quoted_item_re : regex :=
  seq_re [Lit dquote;
          Group (Plus (fun c => negb (one_of [dquote; 10%N] c)));
          Lit dquote].

(** [r'[\n;]+'] *)
Definition separators_re : regex := Plus (one_of [10; 59]%N).

(** The pattern of line 170 under [re.DOTALL]: [^], a double quote, group 1
    holding [.*], a double quote, [$]. *)
Definition quoted_string_re : regex :=
  seq_re [Bol; Lit dquote; Group (Star any_char); Lit dquote; Eol].

(** ** Values *)

(** The values the pipeline handles: what [json.loads] builds, and Python's
    [None].  A float is kept by its [repr], the only thing the code does
    with one being to print it or test it against zero. A dictionary keeps
    its items in insertion order, as Python's [dict] does.  Of what
    [ast.literal_eval] builds beyond these, an integer of any length has
    its place here; a tuple, a set, bytes and a dictionary with a key that
    is no string have none, and the properties that speak of a parsed
    value speak of the parses that give a value of this type. *)
Inductive pyval :=
| VNone
| VBool (b : bool)
| VInt (z : Z)
| VFloat (repr : pystr)
| VStr (s : pystr)
| VList (items : list pyval)
| VDict (d : list (pystr * pyval)).

Abbreviation pydict := (list (pystr * pyval)).

(** [d.get(key)] as an option, [key in d] and [d[key] = v]. *)
Fixpoint dict_get (key : pystr) (d : pydict) : option pyval :=
  match d with
  | [] => None
  | (k, v) :: d' => if pystr_eqb k key then Some v else dict_get key d'
  end.

Definition dict_mem (key : pystr) (d : pydict) : bool :=
  match dict_get key d with Some _ => true | None => false end.

(** An existing key keeps its place, a new key goes last. *)
Fixpoint dict_set (key : pystr) (v : pyval) (d : pydict) : pydict :=
  match d with
  | [] => [(key, v)]
  | (k, w) :: d' =>
      if pystr_eqb k key then (k, v) :: d' else (k, w) :: dict_set key v d'
  end.

Definition dict_keys (d : pydict) : list pystr := map fst d.

(** [bool(v)] *)
Definition truthy (v : pyval) : bool :=
  match v with
  | VNone => false
  | VBool b => b
  | VInt z => negb (z =? 0)%Z
  | VFloat r => negb (pystr_eqb r (py "0.0") || pystr_eqb r (py "-0.0"))
  | VStr s => match s with [] => false | _ => true end
  | VList l => match l with [] => false | _ => true end
  | VDict d => match d with [] => false | _ => true end
  end.

(** [isinstance(v, list)] *)
Definition is_list (v : pyval) : bool :=
  match v with VList _ => true | _ => false end.

(** ** Exceptions and results *)

Inductive exn :=
| RuntimeError (msg : pystr)
| ValueError (msg : pystr)
| JSONDecodeError
| TypeError
| AttributeError
| KeyError
| HTTPError (status : Z)
| RequestException
| ReferenceError
| SyntaxError
| RecursionError
| MemoryError.

(** [except ValueError]: [JSONDecodeError] is a subclass of it. *)
Definition is_ValueError (e : exn) : bool :=
  match e with ValueError _ | JSONDecodeError => true | _ => false end.

(** [except json.JSONDecodeError] *)
Definition is_JSONDecodeError (e : exn) : bool :=
  match e with JSONDecodeError => true | _ => false end.

(** [except (ValueError, SyntaxError)] *)
Definition is_ValueError_or_SyntaxError (e : exn) : bool :=
  match e with SyntaxError => true | _ => is_ValueError e end.

Inductive res (A : Type) :=
| Ok (a : A)
| Raise (e : exn).
Arguments Ok {A} a.
Arguments Raise {A} e.

(** ** What the module imports

    The builtins and libraries [app.py] calls, and its configuration.
    [py_repr v] is [repr(v)], taken to return on every value, as it does
    on the values [json.loads] builds.
    [json_loads] and [literal_eval] give what [json.loads] and
    [ast.literal_eval] return or raise on a text.  [json.loads] raises
    [JSONDecodeError] on a text that is not JSON, and it can raise other
    exceptions: a plain [ValueError] on an integer of more digits than the
    interpreter converts, [RecursionError] on deep nesting.
    [ast.literal_eval] raises [ValueError] or [SyntaxError] on a text that
    is no literal, and [TypeError], [RecursionError] or [MemoryError] on
    some that are (a dictionary display with a list as key is one).  No
    exception is left out of the interface: which of them the source
    handles is decided where it calls them.  [repair_json] is [None] when
    the optional dependency [json_repair] is not installed; the function
    is [None] where it raises, whatever it raises, since both calls sit
    under [except Exception].  [jsonify v] is the value of the JSON document
    [flask.jsonify] writes for [v], or the exception its serialiser raises
    on a result it cannot write. *)
Class Runtime := {
  py_repr : pyval -> pystr;
  json_loads : pystr -> res pyval;
  repair_json : option (pystr -> option pyval);
  literal_eval : pystr -> res pyval;
  jsonify : pyval -> res pyval;
  GEMINI_API_KEY : pystr;
}.

Definition EXPECTED_KEYS : list pystr :=
  [py "market_competition"; py "monetization_potential"; py "target_users";
   py "feature_suggestions"; py "mvp_plan"; py "risk_score"; py "summary"].

Definition list_fields : list pystr := [py "feature_suggestions"; py "mvp_plan"].

Definition is_list_field (key : pystr) : bool :=
  existsb (pystr_eqb key) list_fields.

Definition not_provided : pyval := VStr (py "Not provided").

(** ** The salvager *)

(** Lines 146-152: the end of the value of the key found, [later] being
    the keys declared after it. *)
Fixpoint span_end (text : pystr) (start : nat) (later : list pystr) : nat :=
  match later with
  | [] => length text
  | next_key :: later' =>
      match re_search (next_key_pattern next_key) (drop start text) with
      | Some next_match => start + m_start next_match
      | None => span_end text start later'
      end
  end.

(** Line 154 *)
Definition trim_raw (span : pystr) : pystr :=
  strip (rstrip_by (one_of [44%N]) (strip span)).

(** Lines 159-168 *)
Definition list_markers : N -> bool := one_of [32; 45; 8226; 9; 13; 10]%N.

Definition salvage_items (raw_value : pystr) : list pystr :=
  let inside :=
    match re_search array_re raw_value with
    | Some array_match => group1 raw_value array_match
    | None => raw_value
    end in
  match re_findall quoted_item_re inside with
  | [] =>
      map (strip_by list_markers)
        (filter (fun s => strip_by list_markers s <> [])
                (re_split separators_re inside))
  | items => items
  end.

(** Lines 170-175 *)
Definition salvage_text (raw_value : pystr) : pystr :=
  let val :=
    match re_search quoted_string_re raw_value with
    | Some str_match => group1 raw_value str_match
    | None => raw_value
    end in
  strip (unescape_quotes val).

(** Lines 140-154: the span [(start, end)] of the value of the key of
    index [idx], when the key is found. *)
Definition key_span (text : pystr) (idx : nat) (key : pystr)
    : option (nat * nat) :=
  match re_search (key_pattern key) text with
  | None => None
  | Some m =>
      let start := m_end m in
      Some (start, span_end text start (drop (S idx) EXPECTED_KEYS))
  end.

(** One turn of the loop of line 139. *)
Definition salvage_key (text : pystr) (result : pydict) (idx : nat)
    (key : pystr) : pydict :=
  match key_span text idx key with
  | None => result
  | Some (start, end_) =>
      let raw_value := trim_raw (slice start end_ text) in
      match raw_value with
      | [] => result
      | _ =>
          if is_list_field key
          then dict_set key (VList (map VStr (salvage_items raw_value))) result
          else dict_set key (VStr (salvage_text raw_value)) result
      end
  end.

Definition _salvage_json_like (text : pystr) : pydict :=
  match text with
  | [] => []
  | _ =>
      fold_left (fun result '(idx, key) => salvage_key text result idx key)
                (imap pair EXPECTED_KEYS) []
  end.

Section Parsing.
Context {RT : Runtime}.

(** ** The extractor *)

(** [str(v)]: a string is itself, the other values print as their [repr]. *)
Definition py_str (v : pyval) : pystr :=
  match v with
  | VStr s => s
  | _ => py_repr v
  end.

(** The loop of lines 79-88, from index [i] on and with [s] the text from
    [i]: the index of the brace that brings the depth back to zero. *)
Fixpoint scan_braces (s : pystr) (i : nat) (depth : Z) : option nat :=
  match s with
  | [] => None
  | ch :: s' =>
      if (ch =? 123)%N then scan_braces s' (S i) (depth + 1)
      else if (ch =? 125)%N then
        if (depth - 1 =? 0)%Z then Some i
        else scan_braces s' (S i) (depth - 1)
      else scan_braces s' (S i) depth
  end.

(** Lines 58-65 and 118-125: the repaired text, when it is usable.  The
    block is under [except Exception], so whatever [json.loads] raises on
    the repaired text is dropped. *)
Definition repair_attempt (text : pystr) : option pyval :=
  match repair_json with
  | Some repair =>
      match repair text with
      | Some (VDict d) => Some (VDict d)
      | Some (VStr repaired) =>
          match json_loads repaired with
          | Ok v => Some v
          | Raise _ => None
          end
      | _ => None
      end
  | None => None
  end.

(** [try: return json.loads(s)] under [except json.JSONDecodeError: pass]
    (lines 51-54, 71-74 and 91-94): the value returned, [None] when the
    handler is taken and control goes on, or the exception the handler
    does not catch. *)
Definition try_json_loads (s : pystr) : res (option pyval) :=
  match json_loads s with
  | Ok v => Ok (Some v)
  | Raise e => if is_JSONDecodeError e then Ok None else Raise e
  end.

(** Lines 95-100: [ast.literal_eval] on the candidate, kept when it is a
    dictionary, under [except (ValueError, SyntaxError): pass]. *)
Definition try_literal_eval (s : pystr) : res (option pyval) :=
  match literal_eval s with
  | Ok (VDict d) => Ok (Some (VDict d))
  | Ok _ => Ok None
  | Raise e => if is_ValueError_or_SyntaxError e then Ok None else Raise e
  end.

Definition no_json_message (text : pystr) : pystr :=
  py "No valid JSON object found in model response. "
  ++ py "Raw model output starts with: " ++ py_repr (VStr (take 220 text)).

Definition _extract_json (text : pystr) : res pyval :=
  let text := strip text in
  match try_json_loads text with
  | Raise e => Raise e
  | Ok (Some v) => Ok v
  | Ok None =>
  match repair_attempt text with
  | Some v => Ok v
  | None =>
  match
    match re_search fence_re text with
    | Some fence_match => try_json_loads (strip (group1 text fence_match))
    | None => Ok None
    end
  with
  | Raise e => Raise e
  | Ok (Some v) => Ok v
  | Ok None =>
  match
    match find (py "{") text with
    | Some start =>
        match scan_braces (drop start text) start 0 with
        | Some end_ =>
            let candidate := slice start (end_ + 1) text in
            match try_json_loads candidate with
            | Raise e => Raise e
            | Ok (Some v) => Ok (Some v)
            | Ok None => try_literal_eval candidate
            end
        | None => Ok None
        end
    | None => Ok None
    end
  with
  | Raise e => Raise e
  | Ok (Some v) => Ok v
  | Ok None => Raise (ValueError (no_json_message text))
  end end end end.

Definition _parse_model_json (text : pystr) : res pyval :=
  match _extract_json text with
  | Ok v => Ok v
  | Raise e =>
      if is_ValueError e then
        match repair_attempt text with
        | Some v => Ok v
        | None => Ok (VDict (_salvage_json_like text))
        end
      else Raise e
  end.
End Parsing.

(** ** The object store, the upstream service and the monad of effects *)

(** One answer of [requests.post]: no answer at all (a network failure or
    the timeout of 45 seconds), or a response with its status code and its
    body as [resp.json()] reads it ([None] when the body is not JSON). *)
Inductive http_result :=
| NetworkFailure
| Response (status : Z) (body : option pyval).

(** What one call sends: the prompt and the generation parameters. *)
Record request := {
  req_prompt : pystr;
  req_max_tokens : Z;
  req_temperature : Q;
}.

(** The state a request runs in: the objects allocated so far, by
    reference; the answers the upstream service will give, in order; and the
    calls made to it, latest first. *)
Record world := {
  heap : gmap nat pyval;
  upstream : list http_result;
  calls : list request;
}.

Definition set_heap (f : gmap nat pyval -> gmap nat pyval) (w : world) : world :=
  {| heap := f (heap w); upstream := upstream w; calls := calls w |}.

(** A computation that reads and writes the world and returns or raises. *)
Definition M (A : Type) : Type := world -> res A * world.

#[global] Instance M_ret : MRet M := fun A a w => (Ok a, w).

#[global] Instance M_bind : MBind M := fun A B k m w =>
  match m w with
  | (Ok a, w') => k a w'
  | (Raise e, w') => (Raise e, w')
  end.

Definition raise {A : Type} (e : exn) : M A := fun w => (Raise e, w).

Definition lift_res {A : Type} (r : res A) : M A := fun w => (r, w).

(** [for x in xs: body(x)] *)
Fixpoint for_each {A : Type} (xs : list A) (body : A -> M unit) : M unit :=
  match xs with
  | [] => mret tt
  | x :: xs' => body x ;; for_each xs' body
  end.

(** The object a reference points to. *)
Definition deref (l : nat) : M pyval := fun w =>
  match heap w !! l with
  | Some v => (Ok v, w)
  | None => (Raise ReferenceError, w)
  end.

Definition store (l : nat) (v : pyval) : M unit := fun w =>
  (Ok tt, set_heap <[l := v]> w).

(** A new object, at a reference not in use. *)
Definition new_object (v : pyval) : M nat := fun w =>
  let l := fresh (dom (heap w)) in
  (Ok l, set_heap <[l := v]> w).

(** [key in payload], for a string [key]. *)
Definition py_contains (payload : nat) (key : pystr) : M bool :=
  v ← deref payload;
  match v with
  | VDict d => mret (dict_mem key d)
  | VList items =>
      mret (existsb (fun x => match x with
                              | VStr s => pystr_eqb s key
                              | _ => false
                              end) items)
  | VStr s => mret (is_substring key s)
  | _ => raise TypeError
  end.

(** [payload[key] = v], for a string [key]. *)
Definition py_setitem (payload : nat) (key : pystr) (v : pyval) : M unit :=
  o ← deref payload;
  match o with
  | VDict d => store payload (VDict (dict_set key v d))
  | _ => raise TypeError
  end.

(** [payload[key]], for a string [key]. *)
Definition py_getitem (payload : nat) (key : pystr) : M pyval :=
  o ← deref payload;
  match o with
  | VDict d =>
      match dict_get key d with
      | Some v => mret v
      | None => raise KeyError
      end
  | _ => raise TypeError
  end.

(** [payload.get(key)] *)
Definition py_get (payload : nat) (key : pystr) : M pyval :=
  o ← deref payload;
  match o with
  | VDict d => mret (default VNone (dict_get key d))
  | _ => raise AttributeError
  end.

(** [bool(payload)] *)
Definition py_truthy (payload : nat) : M bool :=
  v ← deref payload; mret (truthy v).

(** The items a [for] over the value visits. *)
Definition py_iter (v : pyval) : M (list pyval) :=
  match v with
  | VList items => mret items
  | VStr s => mret (map (fun c => VStr [c]) s)
  | VDict d => mret (map (fun kv => VStr (fst kv)) d)
  | _ => raise TypeError
  end.

Section Pipeline.
Context {RT : Runtime}.

(** ** The validator *)

Definition required_keys : list pystr :=
  [py "market_competition"; py "monetization_potential"; py "target_users";
   py "feature_suggestions"; py "mvp_plan"; py "risk_score"; py "summary"].

(** [[str(x).strip() for x in xs if str(x).strip()]] *)
Definition clean_items (xs : list pyval) : list pyval :=
  map VStr (filter (fun s => s <> []) (map (fun x => strip (py_str x)) xs)).

Definition _validate_response (payload : nat) : M nat :=
  for_each required_keys (fun key =>
    present ← py_contains payload key;
    if negb present
    then py_setitem payload key
           (if is_list_field key then VList [] else not_provided)
    else mret tt) ;;
  fs ← py_get payload (py "feature_suggestions");
  (if negb (is_list fs)
   then v ← py_getitem payload (py "feature_suggestions");
        py_setitem payload (py "feature_suggestions") (VList [VStr (py_str v)])
   else mret tt) ;;
  mp ← py_get payload (py "mvp_plan");
  (if negb (is_list mp)
   then v ← py_getitem payload (py "mvp_plan");
        py_setitem payload (py "mvp_plan") (VList [VStr (py_str v)])
   else mret tt) ;;
  fs ← py_getitem payload (py "feature_suggestions");
  xs ← py_iter fs;
  py_setitem payload (py "feature_suggestions") (VList (clean_items xs)) ;;
  mp ← py_getitem payload (py "mvp_plan");
  xs ← py_iter mp;
  py_setitem payload (py "mvp_plan") (VList (clean_items xs)) ;;
  mret payload.

(** ** The upstream call *)

(** The world after one more call: its answer is consumed, the call is
    recorded. *)
Definition after_call (rq : request) (w : world) : world :=
  {| heap := heap w; upstream := tail (upstream w); calls := rq :: calls w |}.

(** [requests.post(...)]: the next answer of the service. *)
Definition requests_post (rq : request) : M (Z * option pyval) := fun w =>
  match upstream w with
  | Response status body :: _ => (Ok (status, body), after_call rq w)
  | NetworkFailure :: _ | [] => (Raise RequestException, after_call rq w)
  end.

(** [resp.raise_for_status()] raises for the client and server errors. *)
Definition is_error_status (status : Z) : bool :=
  ((400 <=? status) && (status <? 600))%Z.

(** [v[key]] and [v[0]] inside the [try] of lines 231-236, [None] where they
    raise [KeyError], [IndexError] or [TypeError]. *)
Definition subscript_key (v : pyval) (key : pystr) : option pyval :=
  match v with
  | VDict d => dict_get key d
  | _ => None
  end.

Definition subscript_0 (v : pyval) : option pyval :=
  match v with
  | VList (x :: _) => Some x
  | VStr (c :: _) => Some (VStr [c])
  | _ => None
  end.

(** Lines 232-234 *)
Definition read_candidate (data : pyval) : option (pyval * pyval) :=
  match subscript_key data (py "candidates") with
  | Some candidates =>
  match subscript_0 candidates with
  | Some candidate =>
  match subscript_key candidate (py "content") with
  | Some content =>
  match subscript_key content (py "parts") with
  | Some parts =>
  match subscript_0 parts with
  | Some part =>
  match subscript_key part (py "text") with
  | Some text =>
      Some (text,
            default (VStr []) (subscript_key candidate (py "finishReason")))
  | None => None end
  | None => None end
  | None => None end
  | None => None end
  | None => None end
  | None => None end.

Definition _call_gemini (prompt_text : pystr) (max_tokens : Z)
    (temperature : Q) : M (pyval * pyval) :=
  resp ← requests_post {| req_prompt := prompt_text;
                          req_max_tokens := max_tokens;
                          req_temperature := temperature |};
  let '(status, body) := resp in
  if is_error_status status then raise (HTTPError status)
  else
    match body with
    | None => raise JSONDecodeError
    | Some data =>
        match read_candidate data with
        | Some r => mret r
        | None =>
            raise (RuntimeError (py "Unexpected Gemini response format: "
                                 ++ py_str data))
        end
    end.

(** ** The orchestrator *)

(** [_parse_model_json(text)] on what the call returned: the first thing it
    does is [text.strip()], which only a [str] has. *)
Definition parse_returned_text (text : pyval) : M nat :=
  match text with
  | VStr s => v ← lift_res (_parse_model_json s); new_object v
  | _ => raise AttributeError
  end.

Definition prompt_1 (idea : pystr) : pystr :=
  py "You are a practical startup advisor for solo developers. "
  ++ py "Analyze the project idea and keep answers concise and concrete. "
  ++ py "Project idea:" ++ [10%N] ++ idea.

Definition prompt_2 (idea : pystr) : pystr :=
  py "Retry the same analysis. "
  ++ py "Keep each paragraph under 40 words and arrays short."
  ++ [10%N; 10%N] ++ py "Project idea:" ++ [10%N] ++ idea.

(** [x or 'unknown'], printed *)
Definition or_unknown (x : pyval) : pystr :=
  py_str (if truthy x then x else VStr (py "unknown")).

Definition unusable_summary (finish_1 finish_2 : pyval) : pystr :=
  py "The model response was unusable. "
  ++ py "finishReason(s): " ++ or_unknown finish_1 ++ py ", "
  ++ or_unknown finish_2 ++ py ".".

Definition fallback_payload (finish_1 finish_2 : pyval) : pydict :=
  [(py "market_competition", not_provided);
   (py "monetization_potential", not_provided);
   (py "target_users", not_provided);
   (py "feature_suggestions", VList []);
   (py "mvp_plan", VList []);
   (py "risk_score", not_provided);
   (py "summary", VStr (unusable_summary finish_1 finish_2))].

Definition analyze_project_idea (idea : pystr) : M nat :=
  match GEMINI_API_KEY with
  | [] => raise (RuntimeError (py "Missing GEMINI_API_KEY in environment."))
  | _ =>
      r1 ← _call_gemini (prompt_1 idea) 1400 (35 # 100);
      let '(text_1, finish_1) := r1 in
      parsed_1 ← parse_returned_text text_1;
      ok_1 ← py_truthy parsed_1;
      if (ok_1 : bool) then _validate_response parsed_1
      else
        r2 ← _call_gemini (prompt_2 idea) 1800 (2 # 10);
        let '(text_2, finish_2) := r2 in
        parsed_2 ← parse_returned_text text_2;
        ok_2 ← py_truthy parsed_2;
        if (ok_2 : bool) then _validate_response parsed_2
        else
          fallback ← new_object (VDict (fallback_payload finish_1 finish_2));
          _validate_response fallback
  end.
End Pipeline.

(** ** Views used by the properties *)

(** A string that neither starts nor ends with a character of [p]. *)
Definition clean_ends (p : N -> bool) (s : pystr) : Prop :=
  (forall c, head s = Some c -> p c = false)
  /\ (forall c, last s = Some c -> p c = false).

(** The world in which the reference [l] points to the dictionary [d]. *)
Definition put (l : nat) (d : pydict) (w : world) : world :=
  set_heap <[l := VDict d]> w.

Section Views.
Context {RT : Runtime}.

(** The three passes of [_validate_response] over the dictionary it was
    given: lines 191-193, lines 195-199 and lines 201-202. *)
Definition fill (d : pydict) (key : pystr) : pydict :=
  if dict_mem key d then d
  else dict_set key (if is_list_field key then VList [] else not_provided) d.

Definition wrap (key : pystr) (d : pydict) : pydict :=
  match dict_get key d with
  | Some v => if is_list v then d else dict_set key (VList [VStr (py_str v)]) d
  | None => d
  end.

Definition clean (key : pystr) (d : pydict) : pydict :=
  match dict_get key d with
  | Some (VList xs) => dict_set key (VList (clean_items xs)) d
  | _ => d
  end.

(** What the second and the third pass make of the value of a list field. *)
Definition wrap_value (v : pyval) : pyval :=
  if is_list v then v else VList [VStr (py_str v)].

Definition clean_value (v : pyval) : pyval :=
  match v with
  | VList xs => VList (clean_items xs)
  | _ => v
  end.

(** The dictionary the validator leaves, as a function of the one it
    finds. *)
Definition normalized (d : pydict) : pydict :=
  clean (py "mvp_plan")
    (clean (py "feature_suggestions")
       (wrap (py "mvp_plan")
          (wrap (py "feature_suggestions") (fold_left fill required_keys d)))).

(** The items a list field ends with, from the value the input has under
    its key. *)
Definition list_field_items (o : option pyval) : list pyval :=
  clean_items match o with
              | None => []
              | Some (VList xs) => xs
              | Some v => [VStr (py_str v)]
              end.
End Views.

(** An item of a normalized list field: a string that is not empty and has
    no white space at either end. *)
Definition trimmed_text (v : pyval) : Prop :=
  exists s, v = VStr s /\ s <> [] /\ strip s = s.




(** ** A runtime for the examples

    [demo_repr] prints [None], booleans, integers and floats as Python does,
    and strings, lists and dictionaries as Python does when their strings
    hold no quote, backslash or control character.  [demo_json_loads] agrees
    with [json.loads] on the texts the examples pass to it: it reads the one
    JSON document of its table, fails as CPython 3.11 does on the integer
    of 5000 digits, whose conversion is refused, and rejects the others,
    none of which is JSON.  [demo_literal_eval] agrees with
    [ast.literal_eval] on the texts the examples pass to it: the dictionary
    display with a list as key raises [TypeError] (a list cannot be
    hashed), the display with the hexadecimal literal is read, no limit
    applying to that base, and the others are no Python expression.  The
    optional [json_repair] is not installed.  [demo_jsonify] writes a value
    as the JSON document of that value, and fails as the serialiser does
    on an integer too long to convert. *)
Fixpoint demo_repr (v : pyval) : pystr :=
  match v with
  | VNone => py "None"
  | VBool true => py "True"
  | VBool false => py "False"
  | VInt z => py (DecimalString.NilZero.string_of_int (Z.to_int z))
  | VFloat r => r
  | VStr s => [39%N] ++ s ++ [39%N]
  | VList items => py "[" ++ join (py ", ") (map demo_repr items) ++ py "]"
  | VDict d =>
      py "{"
      ++ join (py ", ")
           (map (fun kv => let '(k, x) := kv in
                           [39%N] ++ k ++ [39%N] ++ py ": " ++ demo_repr x) d)
      ++ py "}"
  end.

(** The digit 1 written 5000 times. *)
Definition many_digits : pystr := repeat 49%N 5000.

(** A Python dictionary display whose one value is the hexadecimal literal
    of 16 to the power 4000, a number of 4817 decimal digits. *)
Definition hex_literal_text : pystr :=
  py "{'summary': 0x1" ++ repeat 48%N 4000 ++ py "}".

Definition demo_json_loads (s : pystr) : res pyval :=
  if pystr_eqb s (py "[1]") then Ok (VList [VInt 1])
  else if pystr_eqb s many_digits then
    Raise (ValueError
             (py "Exceeds the limit (4300 digits) for integer string conversion: value has 5000 digits; use sys.set_int_max_str_digits() to increase the limit"))
  else Raise JSONDecodeError.

Definition demo_literal_eval (s : pystr) : res pyval :=
  if pystr_eqb s (py "{[1]: 2}") then Raise TypeError
  else if pystr_eqb s hex_literal_text then
    Ok (VDict [(py "summary", VInt (16 ^ 4000))])
  else Raise SyntaxError.

(** A value whose integers have at most 4300 decimal digits, the most that
    CPython 3.11 converts to text. *)
Fixpoint writable (v : pyval) : bool :=
  match v with
  | VInt z => (Z.abs z <? 10 ^ 4300)%Z
  | VList items => forallb writable items
  | VDict d => forallb (fun kv => writable (snd kv)) d
  | _ => true
  end.

Definition demo_jsonify (v : pyval) : res pyval :=
  if writable v then Ok v
  else Raise (ValueError
                (py "Exceeds the limit (4300 digits) for integer string conversion; use sys.set_int_max_str_digits() to increase the limit")).

Definition demo_runtime : Runtime := {|
  py_repr := demo_repr;
  json_loads := demo_json_loads;
  repair_json := None;
  literal_eval := demo_literal_eval;
  jsonify := demo_jsonify;
  GEMINI_API_KEY := py "demo-key";
|}.

(** A world with no object, no answer to come and no call made. *)
Definition empty_world : world :=
  {| heap := ∅; upstream := []; calls := [] |}.



(** The transport error an answer of the service makes [_call_gemini]
    raise, if any: no answer, or an error status. *)
Definition transport_failure (a : http_result) : option exn :=
  match a with
  | NetworkFailure => Some RequestException
  | Response status _ =>
      if is_error_status status then Some (HTTPError status) else None
  end.

(** The two requests of [analyze_project_idea]. *)
Definition request_1 (idea : pystr) : request :=
  {| req_prompt := prompt_1 idea; req_max_tokens := 1400;
     req_temperature := 35 # 100 |}.

Definition request_2 (idea : pystr) : request :=
  {| req_prompt := prompt_2 idea; req_max_tokens := 1800;
     req_temperature := 2 # 10 |}.

(** The world in which the reference [l] points to the value [v]. *)
Definition put_value (l : nat) (v : pyval) (w : world) : world :=
  set_heap <[l := v]> w.

(** A well-formed answer of the service: status 200 and one candidate with
    the generated text and the finish reason. *)
Definition gemini_answer (text finish : pyval) : http_result :=
  Response 200
    (Some (VDict [(py "candidates",
                   VList [VDict [(py "content",
                                  VDict [(py "parts",
                                          VList [VDict [(py "text", text)]])]);
                                 (py "finishReason", finish)]])])).

(** The reading of the specification's retry rule this development tests
    the code against: after a transport failure of the first call, a second
    call is made. *)
Definition retried (w : world) : Prop := 2 <= length (calls w).

(** The worlds of the examples: a request starts with no object and no call
    made, and the service has its answers ready. *)
Definition world_with (answers : list http_result) : world :=
  {| heap := ∅; upstream := answers; calls := [] |}.

(** The first call is answered 503, the second would be answered well. *)
Definition first_call_fails : world :=
  world_with [Response 503 None;
              gemini_answer (VStr (py "[1]")) (VStr (py "STOP"))].

(** The first text is empty, the second call is answered 500. *)
Definition second_call_fails : world :=
  world_with [gemini_answer (VStr []) (VStr (py "MAX_TOKENS"));
              Response 500 None].

(** Both texts are unusable, and the second answer has no finish reason. *)
Definition both_unusable : world :=
  world_with [gemini_answer (VStr []) (VStr (py "MAX_TOKENS"));
              gemini_answer (VStr (py "no json here")) (VStr [])].

(** The generated text is the JSON list [[1]]. *)
Definition json_list_answer : world :=
  world_with [gemini_answer (VStr (py "[1]")) (VStr (py "STOP"))].

(** The first call returns a Python dictionary display that holds the
    long integer. *)
Definition long_integer_answer : world :=
  world_with [gemini_answer (VStr hex_literal_text) (VStr (py "STOP"))].

(** ** What a pattern matches

    [lang r i u rest]: the pattern [r] matches the string [u] at index [i]
    of a text that continues with [rest].  The index matters to [^] and the
    continuation to [$] only. *)
Fixpoint lang (r : regex) (i : nat) (u rest : pystr) : Prop :=
  match r with
  | Eps => u = []
  | Lit c => u = [c]
  | Cls p => exists x, u = [x] /\ p x = true
  | Seq r1 r2 =>
      exists u1 u2, u = u1 ++ u2 /\ lang r1 i u1 (u2 ++ rest)
                    /\ lang r2 (i + length u1) u2 rest
  | Opt r1 => u = [] \/ lang r1 i u rest
  | Star p | StarLazy p => Forall (fun c => p c = true) u
  | Plus p => u <> [] /\ Forall (fun c => p c = true) u
  | Group r1 => lang r1 i u rest
  | Bol => u = [] /\ i = 0
  | Eol => u = [] /\ (rest = [] \/ rest = [10%N])
  end.

(** The pattern [r] has a match that starts at index [i] of [text]. *)
Definition occurs_at (r : regex) (text : pystr) (i : nat) : Prop :=
  exists pre u rest, text = pre ++ u ++ rest /\ length pre = i /\ lang r i u rest.

(** A key marker: the key in double quotes, white space, a colon. *)
Definition marker (key ws : pystr) : pystr :=
  [dquote] ++ key ++ [dquote] ++ ws ++ [58%N].

Definition all_space (ws : pystr) : Prop := Forall (fun c => isspace c = true) ws.

(** The key [key] has a marker somewhere in [text]. *)
Definition marker_occurs (key text : pystr) : Prop :=
  exists pre ws post, text = pre ++ marker key ws ++ post /\ all_space ws.

(** The candidate of lines 69-70: the trimmed first group of the first
    match of the fence pattern. *)
Definition fenced_block (text : pystr) : option pystr :=
  match re_search fence_re text with
  | Some fence_match => Some (strip (group1 text fence_match))
  | None => None
  end.

(** The candidate of lines 77-90: the text from the first opening brace to
    the brace that closes it. *)
Definition balanced_region (text : pystr) : option pystr :=
  match find (py "{") text with
  | Some start =>
      match scan_braces (drop start text) start 0 with
      | Some end_ => Some (slice start (end_ + 1) text)
      | None => None
      end
  | None => None
  end.

(** An ASCII literal in which the apostrophe stands for the double quote. *)
Definition pyq (s : string) : pystr :=
  map (fun c => if (c =? 39)%N then dquote else c) (py s).

(** The value the salvager gives a key has the type of its field: a list of
    strings for a list field, a string for a text field. *)
Definition salvaged_type (key : pystr) (v : pyval) : Prop :=
  if is_list_field key
  then exists items, v = VList (map VStr items)
  else exists s, v = VStr s.

(** The reading of the specification's span rule this development tests the
    code against: the value ends at the marker that comes first in the text
    among those of the keys declared later, or at the end of the text. *)
Definition claimed_span_end (text : pystr) (start : nat) (later : list pystr)
    : nat :=
  foldr (fun next_key acc =>
           match re_search (next_key_pattern next_key) (drop start text) with
           | Some next_match => Nat.min (start + m_start next_match) acc
           | None => acc
           end) (length text) later.

(** A text in which [summary] comes before [risk_score], against the order
    of declaration. *)
Definition out_of_order_text : pystr :=
  pyq "{'market_competition': 'a', 'summary': 'b', 'risk_score': 'c'}".

(** The reading of the specification's rule for text fields this
    development tests the code against: a span in one pair of double quotes
    is unwrapped and its escaped quotes unescaped, any other span is kept as
    it is. *)
Definition claimed_text_value (raw : pystr) : pystr :=
  match raw with
  | c :: rest =>
      match rev rest with
      | d :: rev_inner =>
          if ((c =? dquote) && (d =? dquote))%N
          then unescape_quotes (rev rev_inner)
          else raw
      | [] => raw
      end
  | [] => raw
  end.

(** A text whose summary is not quoted and holds an escaped quote, and one
    whose summary is quoted with blanks inside the quotes. *)
Definition escaped_text : pystr := pyq "'summary': a\'b".
Definition padded_text : pystr := pyq "'summary': ' x '".

(** ** Views used by the further properties *)

(** A dictionary that already has the shape the validator gives: the seven
    required keys are present and the two list fields hold lists of
    non-empty trimmed strings. *)
Definition complete_result (d : pydict) : Prop :=
  (forall k, k ∈ required_keys -> is_Some (dict_get k d))
  /\ (forall k, k ∈ list_fields ->
        exists xs, dict_get k d = Some (VList xs) /\ Forall trimmed_text xs).

(** A complete answer of the model. *)
Definition demo_complete : pydict :=
  [(py "market_competition", VStr (py "low"));
   (py "monetization_potential", VStr (py "ads"));
   (py "target_users", VStr (py "devs"));
   (py "feature_suggestions", VList [VStr (py "a"); VStr (py "b")]);
   (py "mvp_plan", VList [VStr (py "step1")]);
   (py "risk_score", VStr (py "low"));
   (py "summary", VStr (py "ok"))].

(** A computation that neither calls the service nor reads its answers. *)
Definition heap_only {A : Type} (m : M A) : Prop :=
  forall w, upstream (snd (m w)) = upstream w /\ calls (snd (m w)) = calls w.

(** The answer of the model is a fragment the salvager can read. *)
Definition salvaged_answer : world :=
  world_with [gemini_answer (VStr (pyq "'summary': 'ok'")) (VStr (py "STOP"));
              Response 500 None].


(** The value the salvager gives the key of index [idx], if any: lines
    140-175 for that key alone. *)
Definition salvaged_value (text : pystr) (idx : nat) (key : pystr)
    : option pyval :=
  match key_span text idx key with
  | None => None
  | Some (start, end_) =>
      match trim_raw (slice start end_ text) with
      | [] => None
      | raw_value =>
          Some (if is_list_field key
                then VList (map VStr (salvage_items raw_value))
                else VStr (salvage_text raw_value))
      end
  end.

(** A fragment with a list field and two text fields. *)
Definition fragment_text : pystr :=
  pyq "'target_users': 'devs', 'mvp_plan': ['one', 'two'], 'summary': 'ok'".

(** The nesting depth a string leaves: its opening braces less its closing
    braces, counted as the loop of lines 81-88 counts them. *)
Fixpoint brace_depth (s : pystr) : Z :=
  match s with
  | [] => 0
  | ch :: s' =>
      ((if (ch =? 123)%N then 1 else if (ch =? 125)%N then -1 else 0)
       + brace_depth s')%Z
  end.

(** Prose around an object that holds a nested object. *)
Definition noisy_text : pystr :=
  pyq "Here: {'a': {'b': 1}, 'c': 2} and {more}".

(** ** The route [/analyze] *)

(** A response of the service: its status code and its JSON body. *)
Record response := {
  status_code : Z;
  json_body : pyval;
}.

(** [jsonify({"error": message}), code], the quotes being Python's: a
    dictionary of one string key and one string is always written. *)
Definition error_response (code : Z) (message : pystr) : response :=
  {| status_code := code; json_body := VDict [(py "error", VStr message)] |}.

(** Lines 296-297: the idea of the request, [body] being what
    [request.get_json(silent=True)] returns ([None] when the request holds
    no JSON).  A payload that is no dictionary has no [get], and an idea
    that is no string has no [strip]. *)
Definition request_idea (body : option pyval) : res pystr :=
  let payload :=
    match body with
    | Some v => if truthy v then v else VDict []
    | None => VDict []
    end in
  match payload with
  | VDict d =>
      let idea := default VNone (dict_get (py "idea") d) in
      match (if truthy idea then idea else VStr []) with
      | VStr s => Ok (strip s)
      | _ => Raise AttributeError
      end
  | _ => Raise AttributeError
  end.

(** [try: body except ...: handler] *)
Definition try_except {A : Type} (body : M A) (handler : exn -> M A) : M A :=
  fun w =>
    match body w with
    | (Ok a, w') => (Ok a, w')
    | (Raise e, w') => handler e w'
    end.

Section Route.
Context {RT : Runtime}.

(** [exc.response.text]: the text of the upstream response an [HTTPError]
    carries, of which the model keeps the status. *)
Variable response_text : Z -> pystr.

(** The [except] clauses of lines 305-311, in their order. *)
Definition error_handler (e : exn) : response :=
  match e with
  | HTTPError status =>
      error_response 502 (py "Gemini API error: " ++ response_text status)
  | ValueError _ | JSONDecodeError =>
      error_response 502 (py "Model response was malformed. Please try again.")
  | _ =>
      error_response 500 (py "Unexpected server error. Check terminal logs.")
  end.

(** The handler of [POST /analyze].  It raises what lines 296-297 raise:
    they stand outside the [try].  [jsonify(result)] of line 304 stands
    inside: what it raises goes to the [except] clauses. *)
Definition analyze (body : option pyval) : M response :=
  idea ← lift_res (request_idea body);
  match idea with
  | [] => mret (error_response 400 (py "Please enter a project idea."))
  | _ =>
      try_except
        (result ← analyze_project_idea idea;
         v ← deref result;
         document ← lift_res (jsonify v);
         mret {| status_code := 200; json_body := document |})
        (fun e => mret (error_handler e))
  end.
End Route.

(** A request that holds no usable idea: no JSON, a falsy JSON value, or
    an object whose [idea] is absent, falsy or white space only. *)
Definition blank_request (body : option pyval) : Prop :=
  body = None
  \/ (exists v, body = Some v /\ truthy v = false)
  \/ (exists d, body = Some (VDict d)
        /\ (dict_get (py "idea") d = None
            \/ (exists v, dict_get (py "idea") d = Some v /\ truthy v = false)
            \/ (exists s, dict_get (py "idea") d = Some (VStr s) /\ all_space s))).

(** The request of the examples. *)
Definition demo_request : option pyval :=
  Some (VDict [(py "idea", VStr (py " a todo app "))]).

Definition demo_response_text (status : Z) : pystr := py "upstream said no".

(* ===================================================================== *)
(** * Part II: properties                                                 *)
(* ===================================================================== *)

(** ** Stripping *)

Lemma pystr_eqb_eq (a b : pystr) : pystr_eqb a b = true <-> a = b.
Proof. unfold pystr_eqb. apply bool_decide_eq_true. Qed.

Lemma pystr_eqb_refl (a : pystr) : pystr_eqb a a = true.
Proof. by apply pystr_eqb_eq. Qed.

Lemma pystr_eqb_neq (a b : pystr) : a <> b -> pystr_eqb a b = false.
Proof. intros H. unfold pystr_eqb. by apply bool_decide_eq_false. Qed.

Lemma drop_while_head p s c s' : drop_while p s = c :: s' -> p c = false.
Proof.
  induction s as [|x s IH]; simpl; [done|].
  destruct (p x) eqn:E; [done|]. by intros [= <- <-].
Qed.

Lemma drop_while_last p s c :
  last (drop_while p s) = Some c -> last s = Some c.
Proof.
  induction s as [|x s IH]; simpl; [done|].
  destruct (p x); [|done].
  intros H. rewrite last_cons, (IH H). done.
Qed.

Lemma drop_while_id p s :
  (forall c, head s = Some c -> p c = false) -> drop_while p s = s.
Proof.
  destruct s as [|x s]; simpl; [done|].
  intros H. by rewrite (H x eq_refl).
Qed.

Lemma rstrip_by_last p s c :
  last (rstrip_by p s) = Some c -> p c = false.
Proof.
  induction s as [|x s IH]; simpl; [done|].
  destruct (rstrip_by p s) as [|y r] eqn:E.
  - destruct (p x) eqn:Ex; simpl; [done|]. by intros [= <-].
  - rewrite last_cons_cons. apply IH.
Qed.

Lemma rstrip_by_id p s :
  (forall c, last s = Some c -> p c = false) -> rstrip_by p s = s.
Proof.
  induction s as [|x s IH]; simpl; [done|].
  intros H. destruct s as [|y s].
  - simpl. by rewrite (H x eq_refl).
  - rewrite IH; [done|]. intros c Hc. apply H.
    by rewrite last_cons_cons.
Qed.

Lemma strip_by_clean_ends p s : clean_ends p (strip_by p s).
Proof.
  unfold strip_by, lstrip_by. split; intros c Hc.
  - destruct (drop_while p (rstrip_by p s)) as [|x t] eqn:E; [done|].
    injection Hc as ->. by eapply drop_while_head.
  - apply drop_while_last in Hc. by eapply rstrip_by_last.
Qed.

Lemma strip_by_id p s : clean_ends p s -> strip_by p s = s.
Proof.
  intros [Hh Hl]. unfold strip_by, lstrip_by.
  rewrite (rstrip_by_id p s Hl). by apply drop_while_id.
Qed.

Lemma strip_by_idemp p s : strip_by p (strip_by p s) = strip_by p s.
Proof. apply strip_by_id, strip_by_clean_ends. Qed.

Lemma strip_idemp s : strip (strip s) = strip s.
Proof. apply strip_by_idemp. Qed.

(** ** Dictionaries *)

Lemma dict_get_set_eq key v d : dict_get key (dict_set key v d) = Some v.
Proof.
  induction d as [|[k w] d IH]; simpl.
  - by rewrite pystr_eqb_refl.
  - destruct (pystr_eqb k key) eqn:E; simpl; by rewrite E.
Qed.

Lemma dict_get_set_ne key key' v d :
  key <> key' -> dict_get key' (dict_set key v d) = dict_get key' d.
Proof.
  intros Hne. induction d as [|[k w] d IH]; simpl.
  - by rewrite pystr_eqb_neq.
  - destruct (pystr_eqb k key) eqn:E; simpl.
    + apply pystr_eqb_eq in E as ->. by rewrite pystr_eqb_neq.
    + by rewrite IH.
Qed.

Lemma dict_get_set key key' v d :
  dict_get key' (dict_set key v d)
  = if decide (key = key') then Some v else dict_get key' d.
Proof.
  case_decide as H; [subst; apply dict_get_set_eq | by apply dict_get_set_ne].
Qed.

Lemma dict_set_id key v d : dict_get key d = Some v -> dict_set key v d = d.
Proof.
  induction d as [|[k w] d IH]; simpl; [done|].
  destruct (pystr_eqb k key) eqn:E.
  - by intros [= ->].
  - intros H. by rewrite IH.
Qed.

Lemma dict_keys_set key v d :
  forall k, k ∈ dict_keys (dict_set key v d) <-> k = key \/ k ∈ dict_keys d.
Proof.
  intros k. unfold dict_keys. induction d as [|[k' w] d IH]; simpl.
  - rewrite list_elem_of_singleton. set_solver.
  - destruct (pystr_eqb k' key) eqn:E; simpl.
    + apply pystr_eqb_eq in E as ->. set_solver.
    + rewrite !elem_of_cons, IH. tauto.
Qed.

Lemma dict_get_Some_keys key d :
  is_Some (dict_get key d) <-> key ∈ dict_keys d.
Proof.
  unfold dict_keys. induction d as [|[k w] d IH]; simpl.
  - split; [by intros [? ?] | by intros ?%elem_of_nil].
  - destruct (pystr_eqb k key) eqn:E.
    + apply pystr_eqb_eq in E as ->. split; [set_solver | eauto].
    + rewrite elem_of_cons, IH. split; [tauto|].
      intros [->|?]; [|done]. by rewrite pystr_eqb_refl in E.
Qed.

(** ** The monad and the store *)

Lemma bind_Ok {A B} (m : M A) (k : A -> M B) w a w' :
  m w = (Ok a, w') -> (m ≫= k) w = k a w'.
Proof. intros H. unfold mbind, M_bind. by rewrite H. Qed.

Lemma bind_Raise {A B} (m : M A) (k : A -> M B) w e w' :
  m w = (Raise e, w') -> (m ≫= k) w = (Raise e, w').
Proof. intros H. unfold mbind, M_bind. by rewrite H. Qed.

Lemma put_put l d d' w : put l d' (put l d w) = put l d' w.
Proof. unfold put, set_heap. simpl. by rewrite insert_insert_eq. Qed.

Lemma put_same l d w : heap w !! l = Some (VDict d) -> put l d w = w.
Proof.
  intros H. destruct w as [h u c]. unfold put, set_heap. simpl in *.
  by rewrite insert_id.
Qed.

Lemma heap_put l d w : heap (put l d w) = <[l := VDict d]> (heap w).
Proof. done. Qed.

Lemma deref_put l d w : deref l (put l d w) = (Ok (VDict d), put l d w).
Proof. unfold deref. by rewrite heap_put, lookup_insert_eq. Qed.

Lemma store_put l d d' w :
  store l (VDict d') (put l d w) = (Ok tt, put l d' w).
Proof. unfold store. fold (put l d' (put l d w)). by rewrite put_put. Qed.

Lemma py_contains_put l key d w :
  py_contains l key (put l d w) = (Ok (dict_mem key d), put l d w).
Proof. unfold py_contains. by rewrite (bind_Ok _ _ _ _ _ (deref_put l d w)). Qed.

Lemma py_setitem_put l key v d w :
  py_setitem l key v (put l d w) = (Ok tt, put l (dict_set key v d) w).
Proof.
  unfold py_setitem. rewrite (bind_Ok _ _ _ _ _ (deref_put l d w)).
  apply store_put.
Qed.

Lemma py_getitem_put l key v d w :
  dict_get key d = Some v ->
  py_getitem l key (put l d w) = (Ok v, put l d w).
Proof.
  intros H. unfold py_getitem. rewrite (bind_Ok _ _ _ _ _ (deref_put l d w)).
  by rewrite H.
Qed.

Lemma py_get_put l key d w :
  py_get l key (put l d w) = (Ok (default VNone (dict_get key d)), put l d w).
Proof. unfold py_get. by rewrite (bind_Ok _ _ _ _ _ (deref_put l d w)). Qed.

(** ** The validator *)

Section ValidatorProps.
Context {RT : Runtime}.

Lemma fill_get k d key :
  dict_get k (fill d key)
  = if decide (key = k)
    then Some (default (if is_list_field key then VList [] else not_provided)
                       (dict_get key d))
    else dict_get k d.
Proof.
  unfold fill, dict_mem. destruct (dict_get key d) as [v|] eqn:E.
  - case_decide; subst; simpl; by rewrite ?E.
  - rewrite dict_get_set. case_decide; subst; simpl; done.
Qed.

Lemma fold_fill_get keys : forall d k,
  dict_get k (fold_left fill keys d)
  = if decide (k ∈ keys)
    then Some (default (if is_list_field k then VList [] else not_provided)
                       (dict_get k d))
    else dict_get k d.
Proof.
  induction keys as [|a keys IH]; intros d k; simpl.
  - done.
  - rewrite IH, fill_get.
    destruct (decide (k ∈ keys)) as [Hin|Hin], (decide (a = k)) as [->|Hne].
    + rewrite decide_True by set_solver. done.
    + rewrite decide_True by set_solver. done.
    + rewrite decide_True by set_solver. done.
    + rewrite decide_False; [done|]. rewrite elem_of_cons. naive_solver.
Qed.

Lemma wrap_get k key d :
  dict_get k (wrap key d)
  = if decide (key = k) then wrap_value <$> dict_get k d else dict_get k d.
Proof.
  unfold wrap, wrap_value. destruct (decide (key = k)) as [->|Hne].
  - destruct (dict_get k d) as [v|] eqn:E; simpl; [|by rewrite E].
    destruct (is_list v) eqn:El; [by rewrite E | by rewrite dict_get_set_eq].
  - destruct (dict_get key d) as [v|]; [|done].
    destruct (is_list v); [done | by rewrite dict_get_set_ne].
Qed.

Lemma clean_get k key d :
  dict_get k (clean key d)
  = if decide (key = k) then clean_value <$> dict_get k d else dict_get k d.
Proof.
  unfold clean, clean_value. destruct (decide (key = k)) as [->|Hne].
  - destruct (dict_get k d) as [v|] eqn:E; simpl; [|by rewrite E].
    destruct v; try (by rewrite E). by rewrite dict_get_set_eq.
  - destruct (dict_get key d) as [v|]; [|done].
    destruct v; try done. by rewrite dict_get_set_ne.
Qed.

(** The first pass, run. *)
Lemma for_each_fill l keys : forall d w,
  for_each keys (fun key =>
    present ← py_contains l key;
    if negb present
    then py_setitem l key
           (if is_list_field key then VList [] else not_provided)
    else mret tt) (put l d w)
  = (Ok tt, put l (fold_left fill keys d) w).
Proof.
  induction keys as [|key keys IH]; intros d w; simpl; [done|].
  erewrite bind_Ok; [apply IH|].
  erewrite bind_Ok by apply py_contains_put.
  unfold fill. destruct (dict_mem key d); simpl; [done|].
  apply py_setitem_put.
Qed.

(** The second pass, run on one list field. *)
Lemma wrap_run {A} l key d w v (k : unit -> M A) :
  dict_get key d = Some v ->
  (fs ← py_get l key;
   (if negb (is_list fs)
    then v ← py_getitem l key;
         py_setitem l key (VList [VStr (py_str v)])
    else mret tt) ≫= k) (put l d w)
  = k tt (put l (wrap key d) w).
Proof.
  intros Hv. erewrite bind_Ok by apply py_get_put.
  unfold wrap. rewrite Hv. simpl. destruct (is_list v); simpl.
  - by erewrite bind_Ok.
  - erewrite bind_Ok; [done|].
    erewrite bind_Ok by (by apply py_getitem_put).
    apply py_setitem_put.
Qed.

(** The third pass, run on one list field. *)
Lemma clean_run {A} l key d w xs (k : unit -> M A) :
  dict_get key d = Some (VList xs) ->
  (fs ← py_getitem l key;
   xs ← py_iter fs;
   py_setitem l key (VList (clean_items xs)) ≫= k) (put l d w)
  = k tt (put l (clean key d) w).
Proof.
  intros Hv. erewrite bind_Ok by (by apply py_getitem_put).
  simpl. erewrite bind_Ok by done.
  erewrite bind_Ok by apply py_setitem_put.
  unfold clean. by rewrite Hv.
Qed.

Lemma wrap_value_is_list v : exists xs, wrap_value v = VList xs.
Proof. unfold wrap_value. destruct v; simpl; eauto. Qed.

(** The validator, run on a reference to a dictionary: it returns the
    reference and leaves [normalized d] there. *)
Lemma validate_run l d w :
  _validate_response l (put l d w) = (Ok l, put l (normalized d) w).
Proof.
  unfold _validate_response, normalized.
  erewrite bind_Ok by apply for_each_fill.
  set (d1 := fold_left fill required_keys d).
  assert (H1 : forall k, k ∈ required_keys -> is_Some (dict_get k d1)).
  { intros k Hk. unfold d1. rewrite fold_fill_get, decide_True by done. eauto. }
  destruct (H1 (py "feature_suggestions")) as [v1 Hv1]; [compute_done|].
  erewrite wrap_run by done.
  set (d2 := wrap (py "feature_suggestions") d1).
  destruct (H1 (py "mvp_plan")) as [v2 Hv2]; [compute_done|].
  assert (Hv2' : dict_get (py "mvp_plan") d2 = Some v2).
  { unfold d2. rewrite wrap_get, decide_False by compute_done. done. }
  erewrite wrap_run by done.
  set (d3 := wrap (py "mvp_plan") d2).
  destruct (wrap_value_is_list v1) as [xs1 Hxs1].
  destruct (wrap_value_is_list v2) as [xs2 Hxs2].
  assert (H3 : dict_get (py "feature_suggestions") d3 = Some (VList xs1)).
  { unfold d3, d2. rewrite wrap_get, decide_False by compute_done.
    rewrite wrap_get, decide_True by done. rewrite Hv1. simpl. by rewrite Hxs1. }
  erewrite clean_run by done.
  set (d4 := clean (py "feature_suggestions") d3).
  assert (H4 : dict_get (py "mvp_plan") d4 = Some (VList xs2)).
  { unfold d4, d3. rewrite clean_get, decide_False by compute_done.
    rewrite wrap_get, decide_True by done. rewrite Hv2'. simpl. by rewrite Hxs2. }
  erewrite clean_run by done.
  done.
Qed.
End ValidatorProps.

Section ValidatorClaims.
Context {RT : Runtime}.

Lemma clean_items_trimmed xs : Forall trimmed_text (clean_items xs).
Proof.
  unfold clean_items. induction xs as [|x xs IH]; [constructor|].
  cbn [map]. rewrite filter_cons. case_decide; cbn [map]; [|apply IH].
  constructor; [|apply IH].
  exists (strip (py_str x)). split; [done|]. split; [done | apply strip_idemp].
Qed.

Lemma clean_items_fixed xs : Forall trimmed_text xs -> clean_items xs = xs.
Proof.
  unfold clean_items. induction 1 as [|x xs (s & -> & Hs & Hstrip) _ IH]; [done|].
  cbn [map py_str]. rewrite Hstrip, filter_cons, decide_True by done.
  cbn [map]. by rewrite IH.
Qed.

Lemma elem_of_list_fields k :
  k ∈ list_fields <-> k = py "feature_suggestions" \/ k = py "mvp_plan".
Proof. unfold list_fields. rewrite !elem_of_cons, elem_of_nil. tauto. Qed.

(** What the validator leaves under each key. *)
Lemma normalized_get k d :
  dict_get k (normalized d)
  = if decide (k ∈ list_fields)
    then Some (VList (list_field_items (dict_get k d)))
    else if decide (k ∈ required_keys)
         then Some (default not_provided (dict_get k d))
         else dict_get k d.
Proof.
  unfold normalized. rewrite !clean_get, !wrap_get, fold_fill_get.
  destruct (decide (py "mvp_plan" = k)) as [<-|Hm].
  { rewrite (decide_True (P := _ ∈ list_fields)) by compute_done.
    rewrite (decide_False (P := py "feature_suggestions" = _)) by compute_done.
    rewrite (decide_True (P := _ ∈ required_keys)) by compute_done.
    cbn [fmap option_fmap option_map].
    change (is_list_field (py "mvp_plan")) with true. cbn iota.
    unfold list_field_items.
    by destruct (dict_get (py "mvp_plan") d) as [[]|]. }
  destruct (decide (py "feature_suggestions" = k)) as [<-|Hf].
  { rewrite (decide_True (P := _ ∈ list_fields)) by compute_done.
    rewrite (decide_True (P := _ ∈ required_keys)) by compute_done.
    change (is_list_field (py "feature_suggestions")) with true. cbn iota.
    unfold list_field_items.
    by destruct (dict_get (py "feature_suggestions") d) as [[]|]. }
  rewrite (decide_False (P := _ ∈ list_fields))
    by (rewrite elem_of_list_fields; naive_solver).
  case_decide as Hk; [|done].
  replace (is_list_field k) with false; [done|].
  symmetry. unfold is_list_field, list_fields. cbn [existsb].
  rewrite !pystr_eqb_neq by done. done.
Qed.

Lemma fold_fill_fixed keys : forall d,
  (forall k, k ∈ keys -> is_Some (dict_get k d)) -> fold_left fill keys d = d.
Proof.
  induction keys as [|key keys IH]; intros d H; simpl; [done|].
  assert (Hf : fill d key = d).
  { unfold fill, dict_mem. by destruct (H key) as [v ->]; [left|]. }
  rewrite Hf. apply IH. intros k Hk. apply H. by right.
Qed.





End ValidatorClaims.





(** ** Computations that leave the service alone *)

Lemma heap_only_ret {A} (a : A) : heap_only (mret a).
Proof. by intros w. Qed.

Lemma heap_only_raise {A} e : heap_only (raise e : M A).
Proof. by intros w. Qed.

Lemma heap_only_lift_res {A} (r : res A) : heap_only (lift_res r).
Proof. by intros w. Qed.

Lemma heap_only_bind {A B} (m : M A) (k : A -> M B) :
  heap_only m -> (forall a, heap_only (k a)) -> heap_only (m ≫= k).
Proof.
  intros Hm Hk w. unfold mbind, M_bind. specialize (Hm w).
  destruct (m w) as [[a|e] w1]; simpl in *; [|done].
  destruct (Hk a w1) as [-> ->]. done.
Qed.

Lemma heap_only_deref l : heap_only (deref l).
Proof. intros w. unfold deref. by destruct (heap w !! l). Qed.

Lemma heap_only_store l v : heap_only (store l v).
Proof. by intros w. Qed.

Lemma heap_only_new_object v : heap_only (new_object v).
Proof. by intros w. Qed.

Lemma heap_only_for_each {A} (xs : list A) body :
  (forall x, heap_only (body x)) -> heap_only (for_each xs body).
Proof.
  intros Hb. induction xs as [|x xs IH]; [apply heap_only_ret|].
  apply heap_only_bind; [apply Hb | by intros _].
Qed.

Lemma heap_only_py_contains l key : heap_only (py_contains l key).
Proof.
  apply heap_only_bind; [apply heap_only_deref|].
  intros []; (apply heap_only_ret || apply heap_only_raise).
Qed.

Lemma heap_only_py_setitem l key v : heap_only (py_setitem l key v).
Proof.
  apply heap_only_bind; [apply heap_only_deref|].
  intros []; (apply heap_only_store || apply heap_only_raise).
Qed.

Lemma heap_only_py_getitem l key : heap_only (py_getitem l key).
Proof.
  apply heap_only_bind; [apply heap_only_deref|].
  intros []; try apply heap_only_raise.
  destruct (dict_get key d); [apply heap_only_ret | apply heap_only_raise].
Qed.

Lemma heap_only_py_get l key : heap_only (py_get l key).
Proof.
  apply heap_only_bind; [apply heap_only_deref|].
  intros []; (apply heap_only_ret || apply heap_only_raise).
Qed.

Lemma heap_only_py_truthy l : heap_only (py_truthy l).
Proof.
  apply heap_only_bind; [apply heap_only_deref | intros; apply heap_only_ret].
Qed.

Lemma heap_only_py_iter v : heap_only (py_iter v).
Proof. destruct v; (apply heap_only_ret || apply heap_only_raise). Qed.

(** ** The upstream call and the orchestrator *)

Section OrchestratorProps.
Context {RT : Runtime}.

Lemma call_gemini_world p mt t w :
  snd (_call_gemini p mt t w)
  = after_call {| req_prompt := p; req_max_tokens := mt;
                  req_temperature := t |} w.
Proof.
  unfold _call_gemini, mbind, M_bind, requests_post.
  destruct (upstream w) as [|[|st body] rest]; try done.
  cbn. destruct (is_error_status st); [done|].
  destruct body as [data|]; [|done]. by destruct (read_candidate data).
Qed.

Lemma heap_only_validate l : heap_only (_validate_response l).
Proof.
  unfold _validate_response.
  repeat first
    [ apply heap_only_ret
    | apply heap_only_py_setitem
    | apply heap_only_py_iter
    | apply heap_only_py_contains
    | apply heap_only_py_get
    | apply heap_only_py_getitem
    | apply heap_only_for_each; intros ?
    | match goal with |- heap_only (if ?b then _ else _) => destruct b end
    | apply heap_only_bind; [|intros ?] ].
Qed.

Lemma heap_only_parse_returned_text text : heap_only (parse_returned_text text).
Proof.
  destruct text; try apply heap_only_raise.
  apply heap_only_bind; [apply heap_only_lift_res|].
  intros v. apply heap_only_new_object.
Qed.

Lemma call_gemini_transport p mt t a rest e w :
  upstream w = a :: rest ->
  transport_failure a = Some e ->
  _call_gemini p mt t w
  = (Raise e, after_call {| req_prompt := p; req_max_tokens := mt;
                            req_temperature := t |} w).
Proof.
  intros Hu Ha. unfold _call_gemini. destruct a as [|st body]; simpl in Ha.
  - injection Ha as <-. apply bind_Raise. unfold requests_post. by rewrite Hu.
  - destruct (is_error_status st) eqn:E; [|done]. injection Ha as <-.
    erewrite bind_Ok; [|unfold requests_post; by rewrite Hu].
    simpl. by rewrite E.
Qed.

Lemma call_gemini_ok p mt t st data rest r w :
  upstream w = Response st (Some data) :: rest ->
  is_error_status st = false ->
  read_candidate data = Some r ->
  _call_gemini p mt t w
  = (Ok r, after_call {| req_prompt := p; req_max_tokens := mt;
                         req_temperature := t |} w).
Proof.
  intros Hu Hs Hr. unfold _call_gemini.
  erewrite bind_Ok; [|unfold requests_post; by rewrite Hu].
  simpl. by rewrite Hs, Hr.
Qed.

Lemma try_json_loads_Raise s e :
  try_json_loads s = Raise e ->
  json_loads s = Raise e /\ is_JSONDecodeError e = false.
Proof.
  unfold try_json_loads. destruct (json_loads s) as [v|e']; [done|].
  destruct (is_JSONDecodeError e') eqn:E; [done|]. by intros [= <-].
Qed.

Lemma try_literal_eval_Raise s e :
  try_literal_eval s = Raise e ->
  literal_eval s = Raise e /\ is_ValueError_or_SyntaxError e = false.
Proof.
  unfold try_literal_eval. destruct (literal_eval s) as [v|e'].
  - by destruct v.
  - destruct (is_ValueError_or_SyntaxError e') eqn:E; [done|]. by intros [= <-].
Qed.

(** What [_extract_json] raises: its own [ValueError], or what a parser
    raised on the trimmed text or on a candidate and the handler around
    the call does not catch. *)
Lemma extract_json_raises text e :
  _extract_json text = Raise e ->
  e = ValueError (no_json_message (strip text))
  \/ (is_JSONDecodeError e = false
      /\ (json_loads (strip text) = Raise e
          \/ (exists c, fenced_block (strip text) = Some c
                        /\ json_loads c = Raise e)
          \/ (exists c, balanced_region (strip text) = Some c
                        /\ json_loads c = Raise e)))
  \/ (is_ValueError_or_SyntaxError e = false
      /\ exists c, balanced_region (strip text) = Some c
                   /\ literal_eval c = Raise e).
Proof.
  unfold _extract_json, fenced_block, balanced_region. intros H.
  destruct (try_json_loads (strip text)) as [[v|]|e1] eqn:E1; [done| |].
  2: { injection H as <-. apply try_json_loads_Raise in E1 as [? ?]. auto. }
  destruct (repair_attempt (strip text)); [done|].
  destruct (re_search fence_re (strip text)) as [m|].
  - destruct (try_json_loads (strip (group1 (strip text) m)))
      as [[v|]|e2] eqn:E2; [done| |].
    2: { injection H as <-. apply try_json_loads_Raise in E2 as [? ?].
         right. left. split; [done|]. right. left. eauto. }
    revert H. clear E2.
    destruct (find (py "{") (strip text)) as [start|]; [|by intros [= <-]; left].
    destruct (scan_braces (drop start (strip text)) start 0) as [end_|];
      [|by intros [= <-]; left].
    cbv zeta.
    destruct (try_json_loads (slice start (end_ + 1) (strip text)))
      as [[v|]|e3] eqn:E3; [done| |].
    2: { intros [= <-]. apply try_json_loads_Raise in E3 as [? ?].
         right. left. split; [done|]. right. right. eauto. }
    destruct (try_literal_eval (slice start (end_ + 1) (strip text)))
      as [[v|]|e4] eqn:E4; [done|by intros [= <-]; left|].
    intros [= <-]. apply try_literal_eval_Raise in E4 as [? ?].
    right. right. eauto.
  - revert H.
    destruct (find (py "{") (strip text)) as [start|]; [|by intros [= <-]; left].
    destruct (scan_braces (drop start (strip text)) start 0) as [end_|];
      [|by intros [= <-]; left].
    cbv zeta.
    destruct (try_json_loads (slice start (end_ + 1) (strip text)))
      as [[v|]|e3] eqn:E3; [done| |].
    2: { intros [= <-]. apply try_json_loads_Raise in E3 as [? ?].
         right. left. split; [done|]. right. right. eauto. }
    destruct (try_literal_eval (slice start (end_ + 1) (strip text)))
      as [[v|]|e4] eqn:E4; [done|by intros [= <-]; left|].
    intros [= <-]. apply try_literal_eval_Raise in E4 as [? ?].
    right. right. eauto.
Qed.

(** [_parse_model_json] raises only what [_extract_json] raised and
    [except ValueError] does not catch. *)
Lemma parse_model_json_Raise text e :
  _parse_model_json text = Raise e ->
  _extract_json text = Raise e /\ is_ValueError e = false.
Proof.
  unfold _parse_model_json. destruct (_extract_json text) as [v|e']; [done|].
  destruct (is_ValueError e') eqn:E.
  - by destruct (repair_attempt text).
  - by intros [= <-].
Qed.

Lemma deref_put_value l v w :
  deref l (put_value l v w) = (Ok v, put_value l v w).
Proof. unfold deref, put_value, set_heap. simpl. by rewrite lookup_insert_eq. Qed.

Lemma py_truthy_put_value l v w :
  py_truthy l (put_value l v w) = (Ok (truthy v), put_value l v w).
Proof. unfold py_truthy. by rewrite (bind_Ok _ _ _ _ _ (deref_put_value l v w)). Qed.

Lemma parse_returned_text_ok s v w :
  _parse_model_json s = Ok v ->
  parse_returned_text (VStr s) w
  = (Ok (fresh (dom (heap w))), put_value (fresh (dom (heap w))) v w).
Proof.
  intros H. unfold parse_returned_text. rewrite H.
  by erewrite bind_Ok by reflexivity.
Qed.

(** The validator leaves the placeholder as it is. *)
Lemma normalized_fallback f1 f2 :
  normalized (fallback_payload f1 f2) = fallback_payload f1 f2.
Proof. reflexivity. Qed.

(** C3 (as amended): a transport error is never absorbed.  When the first
    call fails with one (no answer, or a status from 400 to 599), the
    orchestrator raises it at once, after that single call and without a
    retry; when the first call returns normally, its text parses to a falsy
    value and the second call fails with a transport error, that error
    reaches the caller too.  The retry is made only after a first call that
    returned normally: whatever the first call raises, a transport error,
    the [JSONDecodeError] of a body that is not JSON or the [RuntimeError]
    of an unexpected format, the orchestrator raises it after that single
    call; and when a second call is made, the first call returned a text
    that parsed to a falsy value. *)
Theorem transport_error_propagates (idea : pystr) (w : world) :
  GEMINI_API_KEY <> [] ->
  (forall a rest e,
     upstream w = a :: rest ->
     transport_failure a = Some e ->
     analyze_project_idea idea w = (Raise e, after_call (request_1 idea) w))
  /\ (forall st data s f v a rest e,
        upstream w = Response st (Some data) :: a :: rest ->
        is_error_status st = false ->
        read_candidate data = Some (VStr s, f) ->
        _parse_model_json s = Ok v ->
        truthy v = false ->
        transport_failure a = Some e ->
        analyze_project_idea idea w
        = (Raise e,
           after_call (request_2 idea)
             (put_value (fresh (dom (heap w))) v
                (after_call (request_1 idea) w))))
  /\ (forall e,
        fst (_call_gemini (prompt_1 idea) 1400 (35 # 100) w) = Raise e ->
        analyze_project_idea idea w = (Raise e, after_call (request_1 idea) w))
  /\ (length (calls w) + 2
        <= length (calls (snd (analyze_project_idea idea w))) ->
      exists s finish v,
        _call_gemini (prompt_1 idea) 1400 (35 # 100) w
        = (Ok (VStr s, finish), after_call (request_1 idea) w)
        /\ _parse_model_json s = Ok v
        /\ truthy v = false).
Proof.
  intros Hkey. unfold analyze_project_idea.
  destruct GEMINI_API_KEY as [|c key] eqn:Ek; [done|].
  pose proof (call_gemini_world (prompt_1 idea) 1400 (35 # 100) w) as H1.
  fold (request_1 idea) in H1.
  split; [|split; [|split]].
  - intros a rest e Hu Ha.
    by erewrite bind_Raise by (by eapply call_gemini_transport).
  - intros st data s f v a rest e Hu Hs Hr Hp Hv Ha.
    erewrite bind_Ok by (by eapply call_gemini_ok).
    cbn iota. erewrite bind_Ok by (by apply parse_returned_text_ok).
    erewrite bind_Ok by apply py_truthy_put_value.
    rewrite Hv.
    by erewrite bind_Raise
      by (eapply call_gemini_transport; [by simpl; rewrite Hu|done]).
  - intros e He. apply bind_Raise.
    destruct (_call_gemini (prompt_1 idea) 1400 (35 # 100) w) as [r w1].
    simpl in He, H1. by subst.
  - unfold mbind, M_bind.
    destruct (_call_gemini (prompt_1 idea) 1400 (35 # 100) w)
      as [[[text_1 finish_1]|e] w1]; simpl in H1; subst w1; cbv beta iota;
      [|simpl; lia].
    destruct text_1 as [| | | |s| |];
      try (cbn [parse_returned_text raise fst snd]; simpl; lia).
    cbn [parse_returned_text]. unfold mbind, M_bind, lift_res.
    destruct (_parse_model_json s) as [v|e] eqn:Ep; [|simpl; lia].
    cbn [new_object].
    match goal with
    | |- context [py_truthy ?l ?w0] =>
        change w0 with (put_value l v (after_call (request_1 idea) w));
        rewrite (py_truthy_put_value l v (after_call (request_1 idea) w))
    end.
    cbv beta iota. destruct (truthy v) eqn:Ev.
    + match goal with
      | |- context [_validate_response ?l ?w0] =>
          destruct (heap_only_validate l w0) as [_ ->]
      end.
      simpl. lia.
    + intros _. by exists s, finish_1, v.
Qed.

(** C8: when both calls return normally and both texts parse to a falsy
    value (the empty candidate among them), the orchestrator returns a new
    dictionary, passed through the validator, whose summary names the two
    finish reasons, [unknown] standing for an absent or empty one, and whose
    other six fields are the defaults. *)
Theorem analyze_falls_back (idea : pystr) (w : world)
    (st1 st2 : Z) (data1 data2 : pyval) (s1 s2 : pystr) (f1 f2 v1 v2 : pyval)
    (rest : list http_result) :
  GEMINI_API_KEY <> [] ->
  upstream w = Response st1 (Some data1) :: Response st2 (Some data2) :: rest ->
  is_error_status st1 = false ->
  is_error_status st2 = false ->
  read_candidate data1 = Some (VStr s1, f1) ->
  read_candidate data2 = Some (VStr s2, f2) ->
  _parse_model_json s1 = Ok v1 -> truthy v1 = false ->
  _parse_model_json s2 = Ok v2 -> truthy v2 = false ->
  exists l w',
    analyze_project_idea idea w = (Ok l, w')
    /\ heap w !! l = None
    /\ heap w' !! l = Some (VDict (normalized (fallback_payload f1 f2)))
    /\ normalized (fallback_payload f1 f2)
       = [(py "market_competition", VStr (py "Not provided"));
          (py "monetization_potential", VStr (py "Not provided"));
          (py "target_users", VStr (py "Not provided"));
          (py "feature_suggestions", VList []);
          (py "mvp_plan", VList []);
          (py "risk_score", VStr (py "Not provided"));
          (py "summary",
           VStr (py "The model response was unusable. finishReason(s): "
                 ++ py_str (if truthy f1 then f1 else VStr (py "unknown"))
                 ++ py ", "
                 ++ py_str (if truthy f2 then f2 else VStr (py "unknown"))
                 ++ py "."))]
    /\ calls w' = request_2 idea :: request_1 idea :: calls w
    /\ upstream w' = rest.
Proof.
  intros Hkey Hu Hs1 Hs2 Hr1 Hr2 Hp1 Hv1 Hp2 Hv2.
  unfold analyze_project_idea.
  destruct GEMINI_API_KEY as [|c key] eqn:Ek; [done|].
  erewrite bind_Ok by (by eapply call_gemini_ok).
  cbn iota. erewrite bind_Ok by (by apply parse_returned_text_ok).
  erewrite bind_Ok by apply py_truthy_put_value.
  rewrite Hv1.
  erewrite bind_Ok
    by (eapply call_gemini_ok; [by simpl; rewrite Hu|done..]).
  cbn iota. erewrite bind_Ok by (by apply parse_returned_text_ok).
  erewrite bind_Ok by apply py_truthy_put_value.
  rewrite Hv2.
  erewrite bind_Ok by reflexivity.
  match goal with
  | |- context [_validate_response ?l (set_heap <[?l := VDict ?d]> ?w0)] =>
      change (set_heap <[l := VDict d]> w0) with (put l d w0);
      set (l3 := l); set (w2 := w0)
  end.
  rewrite validate_run.
  exists l3, (put l3 (normalized (fallback_payload f1 f2)) w2).
  split; [done|]. split; [|split; [|split; [|split]]].
  - (* the three references are fresh, the third in particular *)
    apply (not_elem_of_dom (D := gset nat)).
    pose proof (is_fresh (dom (heap w2))) as Hfresh. fold l3 in Hfresh.
    intros Hin. apply Hfresh. unfold w2, put_value, set_heap. simpl.
    rewrite !dom_insert_L. set_solver.
  - by rewrite heap_put, lookup_insert_eq.
  - reflexivity.
  - reflexivity.
  - simpl. by rewrite Hu.
Qed.

(** The validator on a reference to a list that does not hold the first
    key: [key not in payload] is true, and the item assignment of line 193
    raises. *)
Lemma validate_response_list l items w :
  existsb (fun x => match x with
                    | VStr s => pystr_eqb s (py "market_competition")
                    | _ => false
                    end) items = false ->
  _validate_response l (put_value l (VList items) w)
  = (Raise TypeError, put_value l (VList items) w).
Proof.
  intros H. unfold _validate_response. apply bind_Raise.
  cbn [required_keys for_each]. apply bind_Raise.
  erewrite bind_Ok;
    [|unfold py_contains; erewrite bind_Ok by apply deref_put_value;
      reflexivity].
  rewrite H. cbn [negb]. unfold py_setitem.
  by erewrite bind_Ok by apply deref_put_value.
Qed.

(** The failing input of C2: a generated text that is JSON but no object.
    [json.loads] reads the text [[1]] as a list; the first strategy of
    [_extract_json] returns it as it is, the list is truthy, and
    [_validate_response], given a list, raises [TypeError] at its first
    item assignment. *)
Theorem analyze_raises_on_json_list (idea : pystr) (finish : pyval)
    (rest : list http_result) (w : world) :
  GEMINI_API_KEY <> [] ->
  json_loads (py "[1]") = Ok (VList [VInt 1]) ->
  upstream w = gemini_answer (VStr (py "[1]")) finish :: rest ->
  fst (analyze_project_idea idea w) = Raise TypeError.
Proof.
  intros Hkey Hjson Hu. unfold analyze_project_idea.
  destruct GEMINI_API_KEY as [|c key] eqn:Ek; [done|].
  assert (Hp : _parse_model_json (py "[1]") = Ok (VList [VInt 1])).
  { unfold _parse_model_json, _extract_json, try_json_loads.
    change (strip (py "[1]")) with (py "[1]"). by rewrite Hjson. }
  erewrite bind_Ok by (by eapply call_gemini_ok).
  cbn iota. erewrite bind_Ok by (by apply parse_returned_text_ok).
  erewrite bind_Ok by apply py_truthy_put_value.
  cbn [truthy]. by rewrite validate_response_list.
Qed.
End OrchestratorProps.

(** C3 as stated fails on [first_call_fails]: the 503 of the first call
    reaches the caller, and no second call is made. *)
Lemma first_transport_error_reaches_caller :
  fst (analyze_project_idea (RT := demo_runtime) (py "idea") first_call_fails)
  = Raise (HTTPError 503)
  /\ ~ retried (snd (analyze_project_idea (RT := demo_runtime) (py "idea")
                      first_call_fails))
  /\ length (upstream (snd (analyze_project_idea (RT := demo_runtime)
                              (py "idea") first_call_fails))) = 1.
Proof.
  split; [reflexivity|]. split; [|reflexivity].
  unfold retried. vm_compute. lia.
Qed.

Lemma transport_error_propagates_witness :
  GEMINI_API_KEY (Runtime := demo_runtime) <> []
  /\ analyze_project_idea (RT := demo_runtime) (py "idea") first_call_fails
     = (Raise (HTTPError 503),
        after_call (request_1 (py "idea")) first_call_fails)
  /\ analyze_project_idea (RT := demo_runtime) (py "idea") second_call_fails
     = (Raise (HTTPError 500),
        after_call (request_2 (py "idea"))
          (put_value 0 (VDict [])
             (after_call (request_1 (py "idea")) second_call_fails))).
Proof.
  assert (Hkey : GEMINI_API_KEY (Runtime := demo_runtime) <> []) by done.
  split; [exact Hkey|]. split.
  - destruct (transport_error_propagates (RT := demo_runtime)
                (py "idea") first_call_fails Hkey) as [H1 _].
    exact (H1 _ _ _ eq_refl eq_refl).
  - destruct (transport_error_propagates (RT := demo_runtime)
                (py "idea") second_call_fails Hkey) as (_ & H2 & _).
    exact (H2 _ _ _ _ (VDict []) _ _ _ eq_refl eq_refl eq_refl eq_refl
             eq_refl eq_refl).
Defined.

Lemma analyze_falls_back_witness :
  exists l w',
    analyze_project_idea (RT := demo_runtime) (py "idea") both_unusable
    = (Ok l, w')
    /\ heap w' !! l
       = Some (VDict
           [(py "market_competition", VStr (py "Not provided"));
            (py "monetization_potential", VStr (py "Not provided"));
            (py "target_users", VStr (py "Not provided"));
            (py "feature_suggestions", VList []);
            (py "mvp_plan", VList []);
            (py "risk_score", VStr (py "Not provided"));
            (py "summary",
             VStr (py "The model response was unusable. finishReason(s): MAX_TOKENS, unknown."))]).
Proof.
  assert (Hkey : GEMINI_API_KEY (Runtime := demo_runtime) <> []) by done.
  destruct (analyze_falls_back (RT := demo_runtime) (py "idea") both_unusable
              200 200 _ _ [] (py "no json here")
              (VStr (py "MAX_TOKENS")) (VStr []) (VDict []) (VDict []) []
              Hkey eq_refl eq_refl eq_refl eq_refl eq_refl
              eq_refl eq_refl eq_refl eq_refl)
    as (l & w' & Hrun & _ & Hheap & Hnorm & _).
  exists l, w'. split; [exact Hrun|].
  rewrite Hheap, Hnorm. reflexivity.
Defined.

Lemma analyze_raises_on_json_list_witness :
  fst (analyze_project_idea (RT := demo_runtime) (py "idea") json_list_answer)
  = Raise TypeError.
Proof.
  apply (analyze_raises_on_json_list (RT := demo_runtime)
           (py "idea") (VStr (py "STOP")) [] json_list_answer);
    [done | reflexivity | reflexivity].
Defined.

(** ** The extractor *)

Section ExtractorProps.
Context {RT : Runtime}.

(** C4 fails on the code, which lets through what a parser raises and the
    handler around its call does not name.  An exception of [json.loads] on
    the trimmed text that is no [JSONDecodeError] leaves the extractor from
    its first strategy: no other strategy is tried.  And when the first
    three strategies have failed, [json.loads] rejects the balanced region
    and [ast.literal_eval] raises on it an exception that is neither a
    [ValueError] nor a [SyntaxError], the extractor raises that exception
    and not its diagnostic [ValueError]. *)
Theorem extract_json_lets_parser_errors_through (text : pystr) (e : exn) :
  (json_loads (strip text) = Raise e ->
   is_JSONDecodeError e = false ->
   _extract_json text = Raise e)
  /\ (forall c,
        json_loads (strip text) = Raise JSONDecodeError ->
        repair_attempt (strip text) = None ->
        (forall b, fenced_block (strip text) = Some b ->
                   json_loads b = Raise JSONDecodeError) ->
        balanced_region (strip text) = Some c ->
        json_loads c = Raise JSONDecodeError ->
        literal_eval c = Raise e ->
        is_ValueError_or_SyntaxError e = false ->
        _extract_json text = Raise e).
Proof.
  unfold _extract_json, fenced_block, balanced_region, try_json_loads. split.
  - intros -> ->. done.
  - intros c -> -> Hfence Hc Hjson Hlit He. cbn [is_JSONDecodeError].
    assert (Hf : match re_search fence_re (strip text) with
                 | Some fence_match =>
                     match json_loads (strip (group1 (strip text) fence_match))
                     with
                     | Ok v => Ok (Some v)
                     | Raise e0 =>
                         if is_JSONDecodeError e0 then Ok None else Raise e0
                     end
                 | None => Ok None
                 end = Ok None).
    { destruct (re_search fence_re (strip text)) as [m|]; [|done].
      by rewrite (Hfence _ eq_refl). }
    rewrite Hf.
    destruct (find (py "{") (strip text)) as [start|]; [|done].
    destruct (scan_braces (drop start (strip text)) start 0) as [end_|];
      [|done].
    injection Hc as Hc. cbv zeta. rewrite Hc, Hjson. cbn [is_JSONDecodeError].
    unfold try_literal_eval. by rewrite Hlit, He.
Qed.
End ExtractorProps.

Lemma extract_json_lets_parser_errors_through_witness :
  _extract_json (RT := demo_runtime) many_digits
  = Raise (ValueError
             (py "Exceeds the limit (4300 digits) for integer string conversion: value has 5000 digits; use sys.set_int_max_str_digits() to increase the limit"))
  /\ _extract_json (RT := demo_runtime) (py "{[1]: 2}") = Raise TypeError.
Proof.
  split.
  - destruct (extract_json_lets_parser_errors_through (RT := demo_runtime)
                many_digits
                (ValueError
                   (py "Exceeds the limit (4300 digits) for integer string conversion: value has 5000 digits; use sys.set_int_max_str_digits() to increase the limit")))
      as [H1 _].
    apply H1; vm_compute; reflexivity.
  - destruct (extract_json_lets_parser_errors_through (RT := demo_runtime)
                (py "{[1]: 2}") TypeError) as [_ H2].
    apply (H2 (py "{[1]: 2}")); try (vm_compute; reflexivity).
    intros b Hb. vm_compute in Hb. discriminate Hb.
Defined.

(** ** The matcher against what a pattern matches *)

Section MatcherProps.
Context {R : Type}.

Lemma star_greedy_sound p s : forall i (k : pystr -> nat -> option R) x,
  star_greedy p s i k = Some x ->
  exists u rest,
    s = u ++ rest /\ Forall (fun c => p c = true) u
    /\ k rest (i + length u) = Some x.
Proof.
  induction s as [|c s IH]; intros i k x; simpl.
  - intros H. exists [], []. rewrite Nat.add_0_r. by repeat split.
  - destruct (p c) eqn:Ep.
    + destruct (star_greedy p s (S i) k) as [y|] eqn:E.
      * intros [= ->]. destruct (IH _ _ _ E) as (u & rest & -> & Hu & Hk).
        exists (c :: u), rest. simpl. rewrite <- Nat.add_succ_comm.
        repeat split; [by constructor | done].
      * intros H. exists [], (c :: s). rewrite Nat.add_0_r. by repeat split.
    + intros H. exists [], (c :: s). rewrite Nat.add_0_r. by repeat split.
Qed.

Lemma star_lazy_sound p s : forall i (k : pystr -> nat -> option R) x,
  star_lazy p s i k = Some x ->
  exists u rest,
    s = u ++ rest /\ Forall (fun c => p c = true) u
    /\ k rest (i + length u) = Some x.
Proof.
  induction s as [|c s IH]; intros i k x; simpl.
  - destruct (k [] i) eqn:E; [|done]. intros [= ->].
    exists [], []. rewrite Nat.add_0_r. by repeat split.
  - destruct (k (c :: s) i) eqn:E.
    + intros [= ->]. exists [], (c :: s). rewrite Nat.add_0_r. by repeat split.
    + destruct (p c) eqn:Ep; [|done]. intros H.
      destruct (IH _ _ _ H) as (u & rest & -> & Hu & Hk).
      exists (c :: u), rest. simpl. rewrite <- Nat.add_succ_comm.
      repeat split; [by constructor | done].
Qed.

(** A success of the matcher is a match of the pattern followed by a
    success of the continuation. *)
Lemma match_re_sound r : forall s i g k (x : R),
  match_re r s i g k = Some x ->
  exists u rest g',
    s = u ++ rest /\ lang r i u rest /\ k rest (i + length u) g' = Some x.
Proof.
  induction r as [|c|p|r1 IH1 r2 IH2|r1 IH1|p|p|p|r1 IH1| |];
    intros s i g k x; simpl.
  - intros H. exists [], s, g. rewrite Nat.add_0_r. by repeat split.
  - destruct s as [|y s]; [done|]. destruct (N.eqb_spec y c) as [->|]; [|done].
    intros H. exists [c], s, g. rewrite Nat.add_1_r. by repeat split.
  - destruct s as [|y s]; [done|]. destruct (p y) eqn:Ep; [|done].
    intros H. exists [y], s, g. rewrite Nat.add_1_r. repeat split; eauto.
  - intros H. destruct (IH1 _ _ _ _ _ H) as (u1 & rest1 & g1 & -> & H1 & H').
    destruct (IH2 _ _ _ _ _ H') as (u2 & rest & g2 & -> & H2 & Hk).
    exists (u1 ++ u2), rest, g2. rewrite length_app, Nat.add_assoc, <- app_assoc.
    repeat split; [|done]. by exists u1, u2.
  - destruct (match_re r1 s i g k) as [y|] eqn:E.
    + intros [= ->]. destruct (IH1 _ _ _ _ _ E) as (u & rest & g' & -> & H1 & Hk).
      exists u, rest, g'. repeat split; [by right | done].
    + intros H. exists [], s, g. rewrite Nat.add_0_r. repeat split; [by left | done].
  - intros H. destruct (star_greedy_sound _ _ _ _ _ H) as (u & rest & -> & Hu & Hk).
    by exists u, rest, g.
  - intros H. destruct (star_lazy_sound _ _ _ _ _ H) as (u & rest & -> & Hu & Hk).
    by exists u, rest, g.
  - destruct s as [|y s]; [done|]. destruct (p y) eqn:Ep; [|done].
    intros H. destruct (star_greedy_sound _ _ _ _ _ H) as (u & rest & -> & Hu & Hk).
    exists (y :: u), rest, g. simpl. rewrite <- Nat.add_succ_comm.
    repeat split; [done | by constructor | done].
  - intros H. destruct (IH1 _ _ _ _ _ H) as (u & rest & g' & -> & H1 & Hk).
    by exists u, rest, (Some (i, i + length u)).
  - destruct i; [|done]. intros H. exists [], s, g. by repeat split.
  - destruct s as [|c [|d s]].
    + intros H. exists [], [], g. rewrite Nat.add_0_r. repeat split; eauto.
    + destruct (N.eqb_spec c 10) as [->|]; [|done].
      intros H. exists [], [10%N], g. rewrite Nat.add_0_r. repeat split; eauto.
    + done.
Qed.

Lemma star_greedy_complete p u : forall rest i (k : pystr -> nat -> option R),
  Forall (fun c => p c = true) u ->
  is_Some (k rest (i + length u)) ->
  is_Some (star_greedy p (u ++ rest) i k).
Proof.
  induction u as [|c u IH]; intros rest i k Hu Hk; simpl.
  - rewrite Nat.add_0_r in Hk. destruct rest as [|c rest]; simpl; [done|].
    destruct (p c); [|done]. by destruct (star_greedy p rest (S i) k).
  - inversion_clear Hu as [|? ? Hc Hu']. rewrite Hc.
    simpl in Hk. rewrite <- Nat.add_succ_comm in Hk.
    by destruct (IH rest (S i) k Hu' Hk) as [y ->].
Qed.

Lemma star_lazy_complete p u : forall rest i (k : pystr -> nat -> option R),
  Forall (fun c => p c = true) u ->
  is_Some (k rest (i + length u)) ->
  is_Some (star_lazy p (u ++ rest) i k).
Proof.
  induction u as [|c u IH]; intros rest i k Hu Hk; simpl.
  - rewrite Nat.add_0_r in Hk. destruct Hk as [y Hy].
    destruct rest; simpl; by rewrite Hy.
  - inversion_clear Hu as [|? ? Hc Hu']. rewrite Hc.
    simpl in Hk. rewrite <- Nat.add_succ_comm in Hk.
    destruct (k (c :: u ++ rest) i); [done|]. by apply IH.
Qed.

(** Where the pattern has a match after which the continuation succeeds
    whatever the group, the matcher succeeds. *)
Lemma match_re_complete r : forall u rest i g k,
  lang r i u rest ->
  (forall g', is_Some (k rest (i + length u) g' : option R)) ->
  is_Some (match_re r (u ++ rest) i g k).
Proof.
  induction r as [|c|p|r1 IH1 r2 IH2|r1 IH1|p|p|p|r1 IH1| |];
    intros u rest i g k; simpl.
  - intros -> Hk. specialize (Hk g). by rewrite Nat.add_0_r in Hk.
  - intros -> Hk. specialize (Hk g). simpl. rewrite N.eqb_refl.
    by rewrite Nat.add_1_r in Hk.
  - intros (x & -> & Hx) Hk. specialize (Hk g). simpl. rewrite Hx.
    by rewrite Nat.add_1_r in Hk.
  - intros (u1 & u2 & -> & H1 & H2) Hk. rewrite <- app_assoc.
    apply IH1; [done|]. intros g1. apply IH2; [done|].
    intros g2. specialize (Hk g2). by rewrite length_app, Nat.add_assoc in Hk.
  - intros [-> | H1] Hk.
    + destruct (match_re r1 ([] ++ rest) i g k); [done|].
      specialize (Hk g). by rewrite Nat.add_0_r in Hk.
    + by destruct (IH1 u rest i g k H1 Hk) as [y ->].
  - intros Hu Hk. by apply star_greedy_complete.
  - intros Hu Hk. by apply star_lazy_complete.
  - intros [Hne Hu] Hk. destruct u as [|c u]; [done|].
    inversion_clear Hu as [|? ? Hc Hu']. simpl. rewrite Hc.
    apply star_greedy_complete; [done|].
    specialize (Hk g). simpl in Hk. by rewrite <- Nat.add_succ_comm in Hk.
  - intros H1 Hk. by apply IH1.
  - intros [-> ->] Hk. apply Hk.
  - intros [-> Hrest] Hk. specialize (Hk g). rewrite Nat.add_0_r in Hk.
    by destruct Hrest as [-> | ->].
Qed.
End MatcherProps.

Lemma match_at_sound r s i e g :
  match_at r s i = Some (e, g) ->
  exists u rest, s = u ++ rest /\ lang r i u rest /\ e = i + length u.
Proof.
  unfold match_at. intros H.
  destruct (match_re_sound _ _ _ _ _ _ H) as (u & rest & g' & -> & Hl & [= <- <-]).
  by exists u, rest.
Qed.

Lemma match_at_complete r u rest i :
  lang r i u rest -> is_Some (match_at r (u ++ rest) i).
Proof. intros H. unfold match_at. by apply match_re_complete. Qed.

(** [re.search] finds a match of the pattern, and the leftmost start that
    has one. *)
Lemma search_from_sound r s : forall i m,
  search_from r s i = Some m ->
  exists pre u rest,
    s = pre ++ u ++ rest
    /\ m_start m = i + length pre
    /\ m_end m = m_start m + length u
    /\ lang r (m_start m) u rest
    /\ (forall pre' u' rest',
          s = pre' ++ u' ++ rest' -> lang r (i + length pre') u' rest' ->
          length pre <= length pre').
Proof.
  induction s as [|c s IH]; intros i m; simpl.
  - destruct (match_at r [] i) as [[e g]|] eqn:E; [|done]. intros [= <-].
    destruct (match_at_sound _ _ _ _ _ E) as (u & rest & Hs & Hl & ->).
    exists [], u, rest. simpl. rewrite Nat.add_0_r.
    repeat split; [done..|]. intros; lia.
  - destruct (match_at r (c :: s) i) as [[e g]|] eqn:E.
    + intros [= <-].
      destruct (match_at_sound _ _ _ _ _ E) as (u & rest & Hs & Hl & ->).
      exists [], u, rest. simpl. rewrite Nat.add_0_r.
      repeat split; [done..|]. intros; lia.
    + intros H. destruct (IH _ _ H) as (pre & u & rest & -> & Hst & Hen & Hl & Hmin).
      exists (c :: pre), u, rest. simpl.
      rewrite <- Nat.add_succ_comm. repeat split; [done..|].
      intros pre' u' rest' Hs' Hl'. destruct pre' as [|c' pre'].
      * simpl in Hs'. rewrite Nat.add_0_r in Hl'.
        pose proof (match_at_complete _ _ _ _ Hl') as [y Hy].
        rewrite <- Hs' in Hy. by rewrite Hy in E.
      * simpl in *. injection Hs' as -> Hs'.
        rewrite <- Nat.add_succ_comm in Hl'.
        pose proof (Hmin _ _ _ Hs' Hl'). lia.
Qed.

Lemma search_from_None r s : forall i,
  search_from r s i = None ->
  forall pre u rest,
    s = pre ++ u ++ rest -> ~ lang r (i + length pre) u rest.
Proof.
  induction s as [|c s IH]; intros i; simpl.
  - destruct (match_at r [] i) as [[e g]|] eqn:E; [done|]. intros _.
    intros pre u rest Hs Hl. destruct pre; [|done]. simpl in *.
    rewrite Nat.add_0_r in Hl.
    pose proof (match_at_complete _ _ _ _ Hl) as [y Hy].
    rewrite <- Hs in Hy. by rewrite Hy in E.
  - destruct (match_at r (c :: s) i) as [[e g]|] eqn:E; [done|]. intros H.
    intros pre u rest Hs Hl. destruct pre as [|c' pre]; simpl in *.
    + rewrite Nat.add_0_r in Hl.
      pose proof (match_at_complete _ _ _ _ Hl) as [y Hy].
      rewrite <- Hs in Hy. by rewrite Hy in E.
    + injection Hs as -> Hs. rewrite <- Nat.add_succ_comm in Hl.
      by apply (IH _ H _ _ _ Hs).
Qed.

Lemma search_from_complete r s i pre u rest :
  s = pre ++ u ++ rest -> lang r (i + length pre) u rest ->
  is_Some (search_from r s i).
Proof.
  intros Hs Hl. destruct (search_from r s i) eqn:E; [done|].
  by destruct (search_from_None _ _ _ E _ _ _ Hs).
Qed.

(** ** The patterns of the salvager *)

Lemma lang_lits s i u rest : lang (lits s) i u rest <-> u = s.
Proof.
  unfold lits, seq_re. revert i u. induction s as [|c s IH]; intros i u; simpl.
  - done.
  - split.
    + intros (u1 & u2 & -> & -> & H2). apply IH in H2 as ->. done.
    + intros ->. exists [c], s. repeat split. by apply IH.
Qed.

Lemma lang_key_pattern key i u rest :
  lang (key_pattern key) i u rest
  <-> exists ws, u = marker key ws /\ all_space ws.
Proof.
  unfold key_pattern, seq_re, marker. cbn [foldr lang]. split.
  - intros (u1 & ? & -> & -> & u2 & ? & -> & H2 & u3 & ? & -> & -> &
            ws & ? & -> & Hws & u5 & ? & -> & -> & ->).
    apply lang_lits in H2 as ->. exists ws. by rewrite app_nil_r.
  - intros (ws & -> & Hws).
    exists [dquote], (key ++ [dquote] ++ ws ++ [58%N]). repeat split.
    exists key, ([dquote] ++ ws ++ [58%N]). repeat split; [by apply lang_lits|].
    exists [dquote], (ws ++ [58%N]). repeat split.
    exists ws, [58%N]. repeat split; [done|].
    exists [58%N], []. by repeat split.
Qed.

Lemma lang_next_key_pattern key i u rest :
  lang (next_key_pattern key) i u rest
  <-> exists comma ws1 ws,
        u = comma ++ ws1 ++ marker key ws
        /\ (comma = [] \/ comma = [44%N]) /\ all_space ws1 /\ all_space ws.
Proof.
  unfold next_key_pattern, seq_re, marker. cbn [foldr lang]. split.
  - intros (comma & ? & -> & Hc & ws1 & ? & -> & Hws1 & u1 & ? & -> & -> &
            u2 & ? & -> & H2 & u3 & ? & -> & -> &
            ws & ? & -> & Hws & u5 & ? & -> & -> & ->).
    apply lang_lits in H2 as ->. exists comma, ws1, ws.
    by rewrite app_nil_r.
  - intros (comma & ws1 & ws & -> & Hc & Hws1 & Hws).
    exists comma, (ws1 ++ [dquote] ++ key ++ [dquote] ++ ws ++ [58%N]).
    repeat split; [done|].
    exists ws1, ([dquote] ++ key ++ [dquote] ++ ws ++ [58%N]).
    repeat split; [done|].
    exists [dquote], (key ++ [dquote] ++ ws ++ [58%N]). repeat split.
    exists key, ([dquote] ++ ws ++ [58%N]). repeat split; [by apply lang_lits|].
    exists [dquote], (ws ++ [58%N]). repeat split.
    exists ws, [58%N]. repeat split; [done|].
    exists [58%N], []. by repeat split.
Qed.

(** [re.search] in terms of the places where the pattern has a match. *)
Lemma re_search_Some r text m :
  re_search r text = Some m ->
  occurs_at r text (m_start m)
  /\ (forall o, occurs_at r text o -> m_start m <= o)
  /\ exists pre u,
       text = pre ++ u ++ drop (m_end m) text
       /\ length pre = m_start m /\ m_end m = length pre + length u
       /\ lang r (m_start m) u (drop (m_end m) text).
Proof.
  unfold re_search. intros H.
  destruct (search_from_sound _ _ _ _ H)
    as (pre & u & rest & -> & Hst & Hen & Hl & Hmin). simpl in Hst.
  assert (Hd : drop (m_end m) (pre ++ u ++ rest) = rest).
  { rewrite Hen, Hst, app_assoc, <- length_app. apply drop_app_length. }
  split; [by exists pre, u, rest|]. split.
  - intros o (pre' & u' & rest' & Hs' & <- & Hl'). rewrite Hst.
    by apply (Hmin pre' u' rest').
  - exists pre, u. rewrite Hd. repeat split; [done|lia|done].
Qed.

Lemma re_search_None r text :
  re_search r text = None -> forall o, ~ occurs_at r text o.
Proof.
  unfold re_search. intros H o (pre & u & rest & Hs & <- & Hl).
  by apply (search_from_None _ _ _ H pre u rest).
Qed.

Lemma key_marker_found key text m :
  re_search (key_pattern key) text = Some m -> marker_occurs key text.
Proof.
  intros H. apply re_search_Some in H as (_ & _ & pre & u & Hs & _ & _ & Hl).
  apply lang_key_pattern in Hl as (ws & -> & Hws).
  by exists pre, ws, (drop (m_end m) text).
Qed.

(** ** The salvager *)

Lemma salvage_key_get text result idx key k v :
  dict_get k (salvage_key text result idx key) = Some v ->
  dict_get k result = Some v
  \/ (k = key /\ marker_occurs key text /\ salvaged_type key v).
Proof.
  unfold salvage_key, key_span, salvaged_type.
  destruct (re_search (key_pattern key) text) as [m|] eqn:E; [|by left].
  destruct (trim_raw _) as [|c raw]; [by left|].
  pose proof (key_marker_found _ _ _ E) as Hm.
  destruct (is_list_field key); rewrite dict_get_set; case_decide as Hd; subst.
  all: intros Hv; try (by left).
  all: right; injection Hv as <-; eauto.
Qed.

Lemma salvage_fold_get text keys : forall result k v,
  dict_get k (fold_left (fun result '(idx, key) =>
                           salvage_key text result idx key) keys result)
  = Some v ->
  dict_get k result = Some v
  \/ ((exists idx, (idx, k) ∈ keys)
      /\ marker_occurs k text /\ salvaged_type k v).
Proof.
  induction keys as [|[idx key] keys IH]; intros result k v; simpl; [by left|].
  intros H. apply IH in H as [H|((idx' & Hin) & ? & ?)].
  - apply salvage_key_get in H as [H|(-> & ? & ?)]; [by left|].
    right. split; [|done]. exists idx. by left.
  - right. split; [|done]. exists idx'. by right.
Qed.

(** C6: the salvager returns a dictionary on every text.  Each key it
    holds is one of the expected keys, has a marker in the text, and has a
    value of the type of its field; so the dictionary is empty when no
    expected key has a marker in the text, and for the empty text. *)
Theorem salvage_json_like_total (text : pystr) :
  (forall k v,
     dict_get k (_salvage_json_like text) = Some v ->
     k ∈ EXPECTED_KEYS /\ marker_occurs k text /\ salvaged_type k v)
  /\ ((forall key, key ∈ EXPECTED_KEYS -> ~ marker_occurs key text) ->
      _salvage_json_like text = [])
  /\ _salvage_json_like [] = [].
Proof.
  assert (H1 : forall k v,
     dict_get k (_salvage_json_like text) = Some v ->
     k ∈ EXPECTED_KEYS /\ marker_occurs k text /\ salvaged_type k v).
  { intros k v. unfold _salvage_json_like. destruct text as [|c text]; [done|].
    intros H. apply salvage_fold_get in H as [H|((idx & Hin) & ? & ?)]; [done|].
    split; [|done].
    apply elem_of_lookup_imap in Hin as (i & key & [= -> ->] & Hi).
    by eapply list_elem_of_lookup_2. }
  split; [done|]. split; [|done].
  intros Hno. destruct (_salvage_json_like text) as [|[k v] d] eqn:E; [done|].
  destruct (H1 k v) as (Hk & Hm & _).
  { simpl. by rewrite pystr_eqb_refl. }
  by destruct (Hno k Hk).
Qed.

(** The inner loop of lines 148-152: the first of the later keys, in the
    order of declaration, that has a marker after [start] ends the value. *)
Lemma span_end_spec text start later :
  (span_end text start later = length text
   /\ forall n next_key,
        later !! n = Some next_key ->
        re_search (next_key_pattern next_key) (drop start text) = None)
  \/ (exists n next_key m,
        later !! n = Some next_key
        /\ re_search (next_key_pattern next_key) (drop start text) = Some m
        /\ span_end text start later = start + m_start m
        /\ forall n' key',
             n' < n -> later !! n' = Some key' ->
             re_search (next_key_pattern key') (drop start text) = None).
Proof.
  induction later as [|next_key later IH]; simpl.
  - left. split; [done|]. intros n k. by rewrite lookup_nil.
  - destruct (re_search (next_key_pattern next_key) (drop start text))
      as [m|] eqn:E.
    + right. exists 0, next_key, m. repeat split; [done..|]. intros; lia.
    + destruct IH as [[He Hnone]|(n & k & m & Hn & Hm & He & Hnone)].
      * left. split; [done|]. intros [|n] k; simpl; [by intros [= <-] | eauto].
      * right. exists (S n), k, m. repeat split; [done..|].
        intros [|n'] k'; simpl; [by intros _ [= <-]|].
        intros ? ?. apply (Hnone n'); [lia | done].
Qed.

(** C7 (as amended): the value of a key found starts right after the
    leftmost marker of that key.  It ends at the end of the text when no key
    declared later has a marker, preceded by an optional comma and white
    space, after that start; otherwise it ends where the leftmost such
    marker begins for the first key, in the order of declaration, that has
    one, whether or not the marker of another later key comes before it in
    the text.  Keys declared earlier play no part. *)
Theorem salvage_span (text : pystr) (idx : nat) (key : pystr)
    (start end_ : nat) :
  EXPECTED_KEYS !! idx = Some key ->
  key_span text idx key = Some (start, end_) ->
  (exists pre ws,
     text = pre ++ marker key ws ++ drop start text
     /\ all_space ws
     /\ start = length (pre ++ marker key ws)
     /\ forall o, occurs_at (key_pattern key) text o -> length pre <= o)
  /\ ((end_ = length text
       /\ forall j next_key o,
            idx < j -> EXPECTED_KEYS !! j = Some next_key ->
            ~ occurs_at (next_key_pattern next_key) (drop start text) o)
      \/ (exists j next_key o,
            idx < j /\ EXPECTED_KEYS !! j = Some next_key
            /\ end_ = start + o
            /\ occurs_at (next_key_pattern next_key) (drop start text) o
            /\ (forall o',
                  occurs_at (next_key_pattern next_key) (drop start text) o' ->
                  o <= o')
            /\ (forall j' key' o',
                  idx < j' < j -> EXPECTED_KEYS !! j' = Some key' ->
                  ~ occurs_at (next_key_pattern key') (drop start text) o'))).
Proof.
  intros _. unfold key_span.
  destruct (re_search (key_pattern key) text) as [m|] eqn:E; [|done].
  intros [= <- <-]. split.
  - apply re_search_Some in E
      as (_ & Hmin & pre & u & Hs & Hpre & Hend & Hl).
    apply lang_key_pattern in Hl as (ws & -> & Hws).
    exists pre, ws. repeat split; [done..| |].
    + by rewrite length_app.
    + intros o Ho. rewrite Hpre. by apply Hmin.
  - destruct (span_end_spec text (m_end m) (drop (S idx) EXPECTED_KEYS))
      as [[He Hnone]|(n & k & m' & Hn & Hm & He & Hnone)].
    + left. split; [done|]. intros j k o Hj Hk.
      apply re_search_None, (Hnone (j - S idx)).
      rewrite lookup_drop. by replace (S idx + (j - S idx)) with j by lia.
    + right. rewrite lookup_drop in Hn.
      apply re_search_Some in Hm as (Hocc & Hmin & _).
      exists (S idx + n), k, (m_start m'). repeat split; [lia|done..|].
      intros j' k' o' Hj' Hk'.
      apply re_search_None, (Hnone (j' - S idx)); [lia|].
      rewrite lookup_drop. by replace (S idx + (j' - S idx)) with j' by lia.
Qed.

(** C7 as stated fails on [out_of_order_text]: the value of
    [market_competition] runs up to the marker of [risk_score], past the
    marker of [summary], which comes first in the text; the salvaged value
    holds the [summary] item. *)
Lemma span_end_not_first_in_text :
  key_span out_of_order_text 0 (py "market_competition") = Some (22, 42)
  /\ claimed_span_end out_of_order_text 22 (drop 1 EXPECTED_KEYS) = 26
  /\ dict_get (py "market_competition") (_salvage_json_like out_of_order_text)
     = Some (VStr (pyq "a', 'summary': 'b")).
Proof. by vm_compute. Qed.

Lemma salvage_span_witness :
  EXPECTED_KEYS !! 0 = Some (py "market_competition")
  /\ key_span out_of_order_text 0 (py "market_competition") = Some (22, 42)
  /\ exists j next_key o,
       0 < j /\ EXPECTED_KEYS !! j = Some next_key /\ 42 = 22 + o
       /\ occurs_at (next_key_pattern next_key) (drop 22 out_of_order_text) o.
Proof.
  split; [reflexivity|]. split; [reflexivity|].
  destruct (salvage_span out_of_order_text 0 (py "market_competition") 22 42
              eq_refl eq_refl)
    as [_ [[Hend _]|(j & k & o & Hj & Hk & Ho & Hocc & _)]].
  - vm_compute in Hend. discriminate Hend.
  - by exists j, k, o.
Defined.

(** ** The value of a text field *)

(** A greedy [.*] before a pattern that needs one more character backs off
    by exactly the last character. *)
Lemma star_greedy_all_but_last {R} inner : forall c i (k : pystr -> nat -> option R),
  (forall j, k [] j = None) ->
  is_Some (k [c] (i + length inner)) ->
  star_greedy any_char (inner ++ [c]) i k = k [c] (i + length inner).
Proof.
  induction inner as [|x inner IH]; intros c i k Hnil Hk; simpl.
  - rewrite Hnil. by rewrite Nat.add_0_r.
  - simpl in Hk. rewrite <- Nat.add_succ_comm in *.
    rewrite IH by done. by destruct Hk as [y ->].
Qed.

Lemma quoted_string_search_wrapped inner :
  re_search quoted_string_re ([dquote] ++ inner ++ [dquote])
  = Some {| m_start := 0; m_end := S (S (length inner));
            m_group := Some (1, S (length inner)) |}.
Proof.
  unfold re_search. destruct inner as [|x inner]; [done|].
  cbn -[star_greedy]. unfold match_at. cbn -[star_greedy].
  change (x :: inner ++ [dquote]) with ((x :: inner) ++ [dquote]).
  rewrite star_greedy_all_but_last; [done..| by simpl].
Qed.

Lemma lang_quoted_string i u rest :
  lang quoted_string_re i u rest ->
  i = 0 /\ (rest = [] \/ rest = [10%N])
  /\ exists inner, u = [dquote] ++ inner ++ [dquote].
Proof.
  unfold quoted_string_re, seq_re. cbn [foldr lang].
  intros (u1 & ? & -> & [-> ->] & u2 & ? & -> & -> & inner & ? & -> & _ &
          u4 & ? & -> & -> & u5 & ? & -> & [-> Hrest] & ->).
  repeat split; [done|]. exists inner. by rewrite !app_nil_r.
Qed.

Lemma quoted_string_search_other raw :
  clean_ends isspace raw ->
  (forall inner, raw <> [dquote] ++ inner ++ [dquote]) ->
  re_search quoted_string_re raw = None.
Proof.
  intros [_ Hlast] Hno.
  destruct (re_search quoted_string_re raw) as [m|] eqn:E; [|done].
  apply re_search_Some in E as (_ & _ & pre & u & Hs & Hpre & _ & Hl).
  apply lang_quoted_string in Hl as (H0 & Hrest & inner & ->).
  rewrite H0 in Hpre. destruct pre; [|done]. simpl in Hs.
  destruct Hrest as [Hr|Hr]; rewrite Hr in Hs.
  - destruct (Hno inner). by rewrite Hs, app_nil_r.
  - assert (Hl : last raw = Some 10%N).
    { rewrite Hs, app_comm_cons. apply last_snoc. }
    by apply Hlast in Hl.
Qed.

Lemma unescape_quotes_cons c d s :
  unescape_quotes (c :: d :: s)
  = if ((c =? 92) && (d =? 34))%N
    then 34%N :: unescape_quotes s
    else c :: unescape_quotes (d :: s).
Proof. done. Qed.

Lemma unescape_quotes_nonempty s : s <> [] -> unescape_quotes s <> [].
Proof.
  destruct s as [|c [|d s]]; [done..|]. intros _.
  rewrite unescape_quotes_cons. by destruct ((c =? 92) && (d =? 34))%N.
Qed.

Lemma last_cons_nonempty (x : N) l : l <> [] -> last (x :: l) = last l.
Proof. destruct l; [done|]. intros _. apply last_cons_cons. Qed.

Lemma unescape_quotes_last_aux n : forall s,
  length s <= n -> last (unescape_quotes s) = last s.
Proof.
  induction n as [|n IH]; intros s Hn.
  - destruct s; [done | simpl in Hn; lia].
  - destruct s as [|c [|d s]]; [done..|].
    rewrite unescape_quotes_cons. simpl in Hn.
    destruct ((c =? 92) && (d =? 34))%N eqn:E.
    + apply andb_prop in E as [_ ->%N.eqb_eq].
      destruct s as [|e s]; [done|].
      rewrite last_cons_nonempty by (by apply unescape_quotes_nonempty).
      rewrite IH by (simpl in *; lia). by rewrite !last_cons_cons.
    + rewrite last_cons_nonempty by (by apply unescape_quotes_nonempty).
      rewrite IH by (simpl in *; lia). by rewrite !last_cons_cons.
Qed.

Lemma unescape_quotes_clean_ends s :
  clean_ends isspace s -> clean_ends isspace (unescape_quotes s).
Proof.
  intros [Hh Hl]. split.
  - destruct s as [|c [|d s]]; [done..|]. rewrite unescape_quotes_cons.
    destruct ((c =? 92) && (d =? 34))%N; simpl; intros x [= <-]; [done|].
    by apply Hh.
  - intros x. rewrite (unescape_quotes_last_aux (length s)) by done. apply Hl.
Qed.

Lemma trim_raw_clean_ends span : clean_ends isspace (trim_raw span).
Proof. apply strip_by_clean_ends. Qed.

(** C9 (as amended): for a text field, the value computed from the trimmed
    span is, when the span is wrapped in double quotes, what is between the
    first and the last of them with its escaped double quotes unescaped and
    then trimmed again; otherwise it is the span with its escaped double
    quotes unescaped, and not the span as it was. *)
Theorem salvage_text_value (span : pystr) :
  (forall inner,
     trim_raw span = [dquote] ++ inner ++ [dquote] ->
     salvage_text (trim_raw span) = strip (unescape_quotes inner))
  /\ ((forall inner, trim_raw span <> [dquote] ++ inner ++ [dquote]) ->
      salvage_text (trim_raw span) = unescape_quotes (trim_raw span)).
Proof.
  split.
  - intros inner ->. unfold salvage_text.
    rewrite quoted_string_search_wrapped. unfold group1, slice. cbn [m_group].
    replace (S (length inner) - 1) with (length inner) by lia.
    change (drop 1 ([dquote] ++ inner ++ [dquote])) with (inner ++ [dquote]).
    by rewrite take_app_length.
  - intros Hno. unfold salvage_text.
    rewrite quoted_string_search_other
      by (done || apply trim_raw_clean_ends).
    apply strip_by_id, unescape_quotes_clean_ends, trim_raw_clean_ends.
Qed.

(** C9 as stated fails on both of its cases.  For [escaped_text] the span
    is not quoted and is not kept as it is: its escaped quote is unescaped.
    For [padded_text] the span is quoted and the blanks inside the quotes
    are trimmed away. *)
Lemma text_value_not_as_claimed :
  key_span escaped_text 6 (py "summary") = Some (10, 15)
  /\ trim_raw (slice 10 15 escaped_text) = pyq "a\'b"
  /\ claimed_text_value (pyq "a\'b") = pyq "a\'b"
  /\ _salvage_json_like escaped_text = [(py "summary", VStr (pyq "a'b"))]
  /\ key_span padded_text 6 (py "summary") = Some (10, 16)
  /\ trim_raw (slice 10 16 padded_text) = pyq "' x '"
  /\ claimed_text_value (pyq "' x '") = py " x "
  /\ _salvage_json_like padded_text = [(py "summary", VStr (py "x"))].
Proof. by vm_compute. Qed.

(* ===================================================================== *)
(** * Part III: further properties of the code                            *)
(* ===================================================================== *)

(** ** The validator on what it may be given *)

Lemma put_value_same l v w : heap w !! l = Some v -> put_value l v w = w.
Proof.
  intros H. destruct w as [h u c]. unfold put_value, set_heap. simpl in *.
  by rewrite insert_id.
Qed.

Lemma py_contains_put_value l key v w :
  py_contains l key (put_value l v w)
  = (match v with
     | VDict d => Ok (dict_mem key d)
     | VList items =>
         Ok (existsb (fun x => match x with
                               | VStr s => pystr_eqb s key
                               | _ => false
                               end) items)
     | VStr s => Ok (is_substring key s)
     | _ => Raise TypeError
     end, put_value l v w).
Proof.
  unfold py_contains. erewrite bind_Ok by apply deref_put_value.
  by destruct v.
Qed.

Lemma py_setitem_non_dict l key x v w :
  (forall d, v <> VDict d) ->
  py_setitem l key x (put_value l v w) = (Raise TypeError, put_value l v w).
Proof.
  intros Hv. unfold py_setitem. erewrite bind_Ok by apply deref_put_value.
  destruct v; try done. by destruct (Hv d).
Qed.

Lemma py_get_non_dict l key v w :
  (forall d, v <> VDict d) ->
  py_get l key (put_value l v w) = (Raise AttributeError, put_value l v w).
Proof.
  intros Hv. unfold py_get. erewrite bind_Ok by apply deref_put_value.
  destruct v; try done. by destruct (Hv d).
Qed.

Section ValidatorMore.
Context {RT : Runtime}.

(** The loop of lines 191-193 on an object that is no dictionary: it ends
    at the first key the object does not contain. *)
Lemma for_each_fill_non_dict l v w (c : pystr -> bool) keys :
  (forall d, v <> VDict d) ->
  (forall key,
     py_contains l key (put_value l v w) = (Ok (c key), put_value l v w)) ->
  for_each keys (fun key =>
    present ← py_contains l key;
    if negb present
    then py_setitem l key
           (if is_list_field key then VList [] else not_provided)
    else mret tt) (put_value l v w)
  = (if forallb c keys then Ok tt else Raise TypeError, put_value l v w).
Proof.
  intros Hv Hc. induction keys as [|key keys IH]; [done|].
  cbn [for_each forallb]. destruct (c key) eqn:Ek; cbn [andb].
  - erewrite bind_Ok; [apply IH|].
    erewrite bind_Ok by apply Hc. by rewrite Ek.
  - apply bind_Raise. erewrite bind_Ok by apply Hc. rewrite Ek. cbn [negb].
    by apply py_setitem_non_dict.
Qed.

Lemma validate_non_dict_raises (l : nat) (v : pyval) (w : world) :
  heap w !! l = Some v ->
  (forall d, v <> VDict d) ->
  exists e,
    _validate_response l w = (Raise e, w)
    /\ (e = TypeError \/ e = AttributeError).
Proof.
  intros Hl Hv. rewrite <- (put_value_same l v w Hl).
  assert (Hin : forall c : pystr -> bool,
    (forall key,
       py_contains l key (put_value l v w) = (Ok (c key), put_value l v w)) ->
    exists e,
      _validate_response l (put_value l v w) = (Raise e, put_value l v w)
      /\ (e = TypeError \/ e = AttributeError)).
  { (* lists and strings: [in] is defined *)
    intros c Hc. unfold _validate_response.
    destruct (forallb c required_keys) eqn:Ef.
    - exists AttributeError. split; [|by right].
      erewrite bind_Ok
        by (erewrite for_each_fill_non_dict by done; by rewrite Ef).
      apply bind_Raise. by apply py_get_non_dict.
    - exists TypeError. split; [|by left].
      apply bind_Raise. erewrite for_each_fill_non_dict by done.
      by rewrite Ef. }
  assert (Hout :
    (forall key,
       py_contains l key (put_value l v w) = (Raise TypeError, put_value l v w)) ->
    exists e,
      _validate_response l (put_value l v w) = (Raise e, put_value l v w)
      /\ (e = TypeError \/ e = AttributeError)).
  { (* the other values: [in] itself raises *)
    intros Hc. exists TypeError. split; [|by left].
    unfold _validate_response. apply bind_Raise.
    cbn [required_keys for_each]. apply bind_Raise, bind_Raise. apply Hc. }
  destruct v as [|b|z|r|s|items|d].
  1-4: apply Hout; intros key; by rewrite py_contains_put_value.
  - apply (Hin (fun key => is_substring key s)).
    intros key. by rewrite py_contains_put_value.
  - apply (Hin (fun key =>
             existsb (fun x => match x with
                               | VStr s => pystr_eqb s key
                               | _ => false
                               end) items)).
    intros key. by rewrite py_contains_put_value.
  - by destruct (Hv d).
Qed.

(** The validator on a reference to anything but a dictionary raises
    [TypeError] or [AttributeError] and changes nothing. *)
Theorem validate_response_non_dict (l : nat) (v : pyval) (w : world) :
  heap w !! l = Some v ->
  (forall d, v <> VDict d) ->
  exists e,
    _validate_response l w = (Raise e, w)
    /\ (e = TypeError \/ e = AttributeError).
Proof. apply validate_non_dict_raises. Qed.
End ValidatorMore.

Section ValidatorShape.
Context {RT : Runtime}.

Lemma normalized_complete d : complete_result (normalized d).
Proof.
  split; intros k Hk; rewrite normalized_get.
  - repeat case_decide; eauto. done.
  - rewrite decide_True by done. eexists. split; [done|].
    apply clean_items_trimmed.
Qed.

Lemma complete_normalized d : complete_result d -> normalized d = d.
Proof.
  intros [Hr Hl]. unfold normalized. rewrite (fold_fill_fixed _ _ Hr).
  destruct (Hl (py "feature_suggestions")) as (xs1 & H1 & Hx1); [compute_done|].
  destruct (Hl (py "mvp_plan")) as (xs2 & H2 & Hx2); [compute_done|].
  assert (Hw1 : wrap (py "feature_suggestions") d = d).
  { unfold wrap. by rewrite H1. }
  rewrite Hw1.
  assert (Hw2 : wrap (py "mvp_plan") d = d).
  { unfold wrap. by rewrite H2. }
  rewrite Hw2.
  assert (Hc1 : clean (py "feature_suggestions") d = d).
  { unfold clean. rewrite H1, clean_items_fixed by done. by apply dict_set_id. }
  rewrite Hc1.
  unfold clean. rewrite H2, clean_items_fixed by done. by apply dict_set_id.
Qed.

(** The validator changes nothing exactly when the dictionary it is given
    is already complete: the seven keys present and both list fields lists
    of non-empty trimmed strings. *)
Theorem validate_response_noop_iff (l : nat) (d : pydict) (w : world) :
  heap w !! l = Some (VDict d) ->
  _validate_response l w = (Ok l, w) <-> complete_result d.
Proof.
  intros Hl.
  assert (Hrun : _validate_response l w = (Ok l, put l (normalized d) w)).
  { rewrite <- (put_same l d w Hl) at 1. apply validate_run. }
  rewrite Hrun. split.
  - intros [= Hw]. apply (f_equal (fun w' => heap w' !! l)) in Hw.
    rewrite heap_put, lookup_insert_eq, Hl in Hw. injection Hw as Hd.
    rewrite <- Hd. apply normalized_complete.
  - intros Hc. rewrite (complete_normalized _ Hc). by rewrite put_same.
Qed.


Lemma dict_keys_set_absent key v d :
  dict_get key d = None -> dict_keys (dict_set key v d) = dict_keys d ++ [key].
Proof.
  unfold dict_keys. induction d as [|[k x] d IH]; simpl; [done|].
  destruct (pystr_eqb k key) eqn:E; simpl; [done|].
  intros H. by rewrite IH.
Qed.





End ValidatorShape.

Lemma validate_response_non_dict_witness :
  heap (put_value 0 (VList [VInt 1]) empty_world) !! 0 = Some (VList [VInt 1])
  /\ (forall d, VList [VInt 1] <> VDict d)
  /\ exists e,
       _validate_response (RT := demo_runtime) 0
         (put_value 0 (VList [VInt 1]) empty_world)
       = (Raise e, put_value 0 (VList [VInt 1]) empty_world)
       /\ (e = TypeError \/ e = AttributeError).
Proof.
  assert (Hv : forall d, VList [VInt 1] <> VDict d) by done.
  split; [reflexivity|]. split; [exact Hv|].
  exact (validate_response_non_dict (RT := demo_runtime) 0 (VList [VInt 1])
           (put_value 0 (VList [VInt 1]) empty_world) eq_refl Hv).
Defined.

Lemma validate_response_noop_iff_witness :
  heap (put 0 demo_complete empty_world) !! 0 = Some (VDict demo_complete)
  /\ (_validate_response (RT := demo_runtime) 0 (put 0 demo_complete empty_world)
      = (Ok 0, put 0 demo_complete empty_world)
      <-> complete_result demo_complete).
Proof.
  split; [reflexivity|].
  exact (validate_response_noop_iff (RT := demo_runtime) 0 demo_complete
           (put 0 demo_complete empty_world) eq_refl).
Defined.


(** ** The upstream call *)

(** The answers [_call_gemini] accepts: a JSON object whose [candidates] is
    a list that starts with an object, whose [content] is an object whose
    [parts] is a list that starts with an object holding [text].  Only the
    first candidate and its first part are read, and a candidate without
    [finishReason] has the empty string for it. *)
Theorem read_candidate_shape (data text finish : pyval) :
  read_candidate data = Some (text, finish)
  <-> exists d candidate others content part parts,
        data = VDict d
        /\ dict_get (py "candidates") d = Some (VList (VDict candidate :: others))
        /\ dict_get (py "content") candidate = Some (VDict content)
        /\ dict_get (py "parts") content = Some (VList (VDict part :: parts))
        /\ dict_get (py "text") part = Some text
        /\ finish = default (VStr []) (dict_get (py "finishReason") candidate).
Proof.
  split.
  - unfold read_candidate. intros H.
    destruct data as [| | | | |?|d]; try done. cbn [subscript_key] in H.
    destruct (dict_get (py "candidates") d) as [cs|] eqn:E1; [|done].
    destruct cs as [| | | |[|? ?]|[|cand others]|?]; try done.
    cbn [subscript_0] in H.
    destruct cand as [| | | | |?|candidate]; try done. cbn [subscript_key] in H.
    destruct (dict_get (py "content") candidate) as [ct|] eqn:E2; [|done].
    destruct ct as [| | | | |?|content]; try done. cbn [subscript_key] in H.
    destruct (dict_get (py "parts") content) as [ps|] eqn:E3; [|done].
    destruct ps as [| | | |[|? ?]|[|pt parts]|?]; try done.
    cbn [subscript_0] in H.
    destruct pt as [| | | | |?|part]; try done. cbn [subscript_key] in H.
    destruct (dict_get (py "text") part) as [tx|] eqn:E4; [|done].
    injection H as <- <-.
    by exists d, candidate, others, content, part, parts.
  - intros (d & candidate & others & content & part & parts
            & -> & H1 & H2 & H3 & H4 & ->).
    unfold read_candidate. cbn [subscript_key]. rewrite H1. cbn [subscript_0 subscript_key].
    rewrite H2. cbn [subscript_key]. rewrite H3. cbn [subscript_0 subscript_key].
    by rewrite H4.
Qed.

Section CallProps.
Context {RT : Runtime}.

(** Whatever its outcome, one call consumes exactly one answer of the
    service, records exactly one request, with the prompt and parameters it
    was given, and leaves every object as it was. *)
Theorem call_gemini_effect (p : pystr) (mt : Z) (t : Q) (w : world) :
  let w' := snd (_call_gemini p mt t w) in
  heap w' = heap w
  /\ upstream w' = tail (upstream w)
  /\ calls w'
     = {| req_prompt := p; req_max_tokens := mt; req_temperature := t |}
         :: calls w.
Proof. cbn zeta. by rewrite call_gemini_world. Qed.

(** The call returns normally exactly when the next answer has a status
    that is no error and a JSON body of the accepted shape; it then returns
    the text and the finish reason read from it. *)
Theorem call_gemini_returns_iff (p : pystr) (mt : Z) (t : Q) (w : world)
    (r : pyval * pyval) :
  fst (_call_gemini p mt t w) = Ok r
  <-> exists st data rest,
        upstream w = Response st (Some data) :: rest
        /\ is_error_status st = false
        /\ read_candidate data = Some r.
Proof.
  split.
  - unfold _call_gemini, mbind, M_bind, requests_post.
    destruct (upstream w) as [|[|st body] rest]; try done.
    cbn. destruct (is_error_status st) eqn:Es; [done|].
    destruct body as [data|]; [|done].
    destruct (read_candidate data) as [r'|] eqn:Er; [|done].
    cbn. intros [= <-]. by exists st, data, rest.
  - intros (st & data & rest & Hu & Hs & Hr).
    by erewrite call_gemini_ok.
Qed.
End CallProps.

(** ** The calls of the orchestrator *)

Section OrchestratorMore.
Context {RT : Runtime}.

(** The orchestrator never makes more than two calls.  It makes none only
    when the credential is missing; otherwise it sends the first request
    and, at most, the retry request after it, and consumes one answer of
    the service for each. *)
Theorem analyze_makes_at_most_two_calls (idea : pystr) (w : world) :
  let w' := snd (analyze_project_idea idea w) in
  (GEMINI_API_KEY = [] /\ calls w' = calls w /\ upstream w' = upstream w)
  \/ (calls w' = request_1 idea :: calls w
      /\ upstream w' = tail (upstream w))
  \/ (calls w' = request_2 idea :: request_1 idea :: calls w
      /\ upstream w' = tail (tail (upstream w))).
Proof.
  cbn zeta. unfold analyze_project_idea.
  destruct GEMINI_API_KEY as [|c key]; [by left|]. right.
  unfold mbind, M_bind.
  pose proof (call_gemini_world (prompt_1 idea) 1400 (35 # 100) w) as H1.
  fold (request_1 idea) in H1.
  destruct (_call_gemini (prompt_1 idea) 1400 (35 # 100) w)
    as [[[text_1 finish_1]|e] w1]; simpl in H1; subst w1;
    cbv beta iota; [|by left].
  pose proof (heap_only_parse_returned_text text_1
                (after_call (request_1 idea) w)) as [Hu2 Hc2].
  destruct (parse_returned_text text_1 (after_call (request_1 idea) w))
    as [[parsed_1|e] w2]; simpl in Hu2, Hc2; cbv beta iota; [|by left].
  pose proof (heap_only_py_truthy parsed_1 w2) as [Hu3 Hc3].
  destruct (py_truthy parsed_1 w2) as [[ok_1|e] w3]; simpl in Hu3, Hc3;
    cbv beta iota; [|left; simpl; split; congruence].
  destruct ok_1.
  { left. destruct (heap_only_validate parsed_1 w3) as [-> ->].
    split; congruence. }
  pose proof (call_gemini_world (prompt_2 idea) 1800 (2 # 10) w3) as H4.
  fold (request_2 idea) in H4.
  assert (Hcalls : calls (after_call (request_2 idea) w3)
                   = request_2 idea :: request_1 idea :: calls w)
    by (simpl; congruence).
  assert (Hups : upstream (after_call (request_2 idea) w3)
                 = tail (tail (upstream w)))
    by (simpl; congruence).
  right.
  destruct (_call_gemini (prompt_2 idea) 1800 (2 # 10) w3)
    as [[[text_2 finish_2]|e] w4]; simpl in H4; subst w4;
    cbv beta iota; [|done].
  pose proof (heap_only_parse_returned_text text_2
                (after_call (request_2 idea) w3)) as [Hu5 Hc5].
  destruct (parse_returned_text text_2 (after_call (request_2 idea) w3))
    as [[parsed_2|e] w5]; simpl in Hu5, Hc5; cbv beta iota;
    [|simpl; split; congruence].
  pose proof (heap_only_py_truthy parsed_2 w5) as [Hu6 Hc6].
  destruct (py_truthy parsed_2 w5) as [[ok_2|e] w6]; simpl in Hu6, Hc6;
    cbv beta iota; [|simpl; split; congruence].
  destruct ok_2.
  { destruct (heap_only_validate parsed_2 w6) as [-> ->]. split; congruence. }
  cbn [new_object].
  match goal with
  | |- context [_validate_response ?l ?w0] =>
      destruct (heap_only_validate l w0) as [-> ->]
  end.
  simpl. split; congruence.
Qed.
End OrchestratorMore.

Lemma bind_Ok_inv {A B} (m : M A) (k : A -> M B) w b w' :
  (m ≫= k) w = (Ok b, w') ->
  exists a w1, m w = (Ok a, w1) /\ k a w1 = (Ok b, w').
Proof.
  unfold mbind, M_bind. destruct (m w) as [[a|e] w1]; [eauto | done].
Qed.

Section OrchestratorReturns.
Context {RT : Runtime}.

(** The validator returns only on a reference to a dictionary. *)
Lemma validate_response_Ok_inv l l' w w' :
  _validate_response l w = (Ok l', w') ->
  l' = l /\ exists d, heap w !! l = Some (VDict d)
                      /\ w' = put l (normalized d) w.
Proof.
  destruct (heap w !! l) as [v|] eqn:E.
  - assert (Hcase : (exists d, v = VDict d) \/ (forall d, v <> VDict d)).
    { destruct v; try (by right). left. eauto. }
    destruct Hcase as [[d ->]|Hv].
    + rewrite <- (put_same l d w E) at 1. rewrite validate_run.
      intros [= <- <-]. eauto.
    + by destruct (validate_non_dict_raises l v w E Hv) as (e & -> & _).
  - assert (Hr : _validate_response l w = (Raise ReferenceError, w)); [|by rewrite Hr].
    unfold _validate_response. apply bind_Raise.
    cbn [required_keys for_each]. apply bind_Raise, bind_Raise.
    unfold py_contains. apply bind_Raise. unfold deref. by rewrite E.
Qed.

Lemma analyze_Ok_inv (idea : pystr) (w w' : world) (l : nat) :
  analyze_project_idea idea w = (Ok l, w') ->
  exists d, heap w' !! l = Some (VDict d) /\ complete_result d.
Proof.
  assert (Hv : forall p w0,
    _validate_response p w0 = (Ok l, w') ->
    exists d, heap w' !! l = Some (VDict d) /\ complete_result d).
  { intros p w0 H. apply validate_response_Ok_inv in H as (-> & d & _ & ->).
    exists (normalized d). split; [|apply normalized_complete].
    by rewrite heap_put, lookup_insert_eq. }
  unfold analyze_project_idea. destruct GEMINI_API_KEY as [|c key]; [done|].
  intros H.
  apply bind_Ok_inv in H as ([text_1 finish_1] & w1 & _ & H).
  apply bind_Ok_inv in H as (parsed_1 & w2 & _ & H).
  apply bind_Ok_inv in H as (ok_1 & w3 & _ & H).
  destruct ok_1; [by eapply Hv|].
  apply bind_Ok_inv in H as ([text_2 finish_2] & w4 & _ & H).
  apply bind_Ok_inv in H as (parsed_2 & w5 & _ & H).
  apply bind_Ok_inv in H as (ok_2 & w6 & _ & H).
  destruct ok_2; [by eapply Hv|].
  apply bind_Ok_inv in H as (fallback & w7 & _ & H).
  by eapply Hv.
Qed.

(** Whenever the orchestrator returns, what it returns is a reference to a
    complete result: a dictionary with the seven required keys whose two
    list fields hold lists of non-empty trimmed strings. *)
Theorem analyze_returns_complete (idea : pystr) (w w' : world) (l : nat) :
  analyze_project_idea idea w = (Ok l, w') ->
  exists d, heap w' !! l = Some (VDict d) /\ complete_result d.
Proof. apply analyze_Ok_inv. Qed.


End OrchestratorReturns.

Lemma analyze_returns_complete_witness :
  exists l w',
    analyze_project_idea (RT := demo_runtime) (py "idea") salvaged_answer
    = (Ok l, w')
    /\ exists d, heap w' !! l = Some (VDict d) /\ complete_result d.
Proof.
  eexists _, _. split; [vm_compute; reflexivity|].
  apply (analyze_returns_complete (RT := demo_runtime) (py "idea")
           salvaged_answer).
  vm_compute. reflexivity.
Defined.



(** ** The parser and the salvager *)

Section ParserMore.
Context {RT : Runtime}.

(** [_parse_model_json] raises no [ValueError], the diagnostic of the
    extractor included.  What it raises was raised by [json.loads] or
    [ast.literal_eval] on the trimmed text or on a candidate of the
    extractor.  Where the extractor raises a [ValueError] it returns the
    repair of the text as it came, or else the dictionary of the salvager;
    where the extractor returns it returns the same; and it returns on
    every text when the two parsers raise only what the handlers around
    their calls name. *)
Theorem parse_model_json_raises_only_parser_errors (text : pystr) :
  (forall e,
     _parse_model_json text = Raise e ->
     is_ValueError e = false
     /\ (json_loads (strip text) = Raise e
         \/ (exists c, fenced_block (strip text) = Some c
                       /\ json_loads c = Raise e)
         \/ (exists c, balanced_region (strip text) = Some c
                       /\ (json_loads c = Raise e
                           \/ literal_eval c = Raise e))))
  /\ (forall e,
        _extract_json text = Raise e ->
        is_ValueError e = true ->
        _parse_model_json text
        = Ok match repair_attempt text with
             | Some v => v
             | None => VDict (_salvage_json_like text)
             end)
  /\ (forall v, _extract_json text = Ok v -> _parse_model_json text = Ok v)
  /\ ((forall s e, json_loads s = Raise e -> is_ValueError e = true) ->
      (forall s e, literal_eval s = Raise e ->
                   is_ValueError_or_SyntaxError e = true) ->
      exists v, _parse_model_json text = Ok v).
Proof.
  split; [|split; [|split]].
  - intros e H. apply parse_model_json_Raise in H as [H He].
    split; [done|].
    apply extract_json_raises in H as [->|[[_ H]|[_ (c & Hc & H)]]].
    + done.
    + destruct H as [H|[(c & Hc & H)|(c & Hc & H)]]; eauto 6.
    + eauto 6.
  - intros e H He. unfold _parse_model_json. rewrite H, He.
    by destruct (repair_attempt text).
  - intros v H. unfold _parse_model_json. by rewrite H.
  - intros Hjson Hlit.
    destruct (_parse_model_json text) as [v|e] eqn:E; [eauto|].
    apply parse_model_json_Raise in E as [H He].
    apply extract_json_raises in H as [->|[[_ H]|[Hse (c & Hc & H)]]].
    + done.
    + destruct H as [H|[(c & Hc & H)|(c & Hc & H)]];
        apply Hjson in H; congruence.
    + apply Hlit in H. congruence.
Qed.
End ParserMore.

Lemma salvage_key_value text result idx key :
  salvage_key text result idx key
  = match salvaged_value text idx key with
    | Some v => dict_set key v result
    | None => result
    end.
Proof.
  unfold salvage_key, salvaged_value.
  destruct (key_span text idx key) as [[start end_]|]; [|done].
  destruct (trim_raw (slice start end_ text)); [done|].
  by destruct (is_list_field key).
Qed.

Lemma salvage_fold_other text ks : forall result k,
  k ∉ map snd ks ->
  dict_get k (fold_left (fun result '(idx, key) =>
                           salvage_key text result idx key) ks result)
  = dict_get k result.
Proof.
  induction ks as [|[i a] ks IH]; intros result k Hk; simpl; [done|].
  simpl in Hk. apply not_elem_of_cons in Hk as [Hne Hk].
  rewrite IH by done. rewrite salvage_key_value.
  destruct (salvaged_value text i a); [|done]. by apply dict_get_set_ne.
Qed.

Lemma salvage_fold_own text ks : forall result idx k,
  NoDup (map snd ks) ->
  (idx, k) ∈ ks ->
  dict_get k (fold_left (fun result '(idx, key) =>
                           salvage_key text result idx key) ks result)
  = match salvaged_value text idx k with
    | Some v => Some v
    | None => dict_get k result
    end.
Proof.
  induction ks as [|[i a] ks IH]; intros result idx k Hnd Hin; simpl.
  - by apply elem_of_nil in Hin.
  - simpl in Hnd. apply NoDup_cons in Hnd as [Ha Hnd].
    apply elem_of_cons in Hin as [[= -> ->]|Hin].
    + rewrite salvage_fold_other by done. rewrite salvage_key_value.
      destruct (salvaged_value text i a); [|done]. apply dict_get_set_eq.
    + rewrite (IH _ idx) by done.
      assert (Hne : a <> k).
      { intros ->. apply Ha. apply list_elem_of_In, in_map_iff.
        exists (idx, k). split; [done|]. by apply list_elem_of_In. }
      rewrite salvage_key_value.
      destruct (salvaged_value text i a); [|done].
      by rewrite dict_get_set_ne.
Qed.

Lemma key_pattern_not_in_empty key : re_search (key_pattern key) [] = None.
Proof. done. Qed.

(** What the salvager holds under an expected key is the value computed
    from that key's own span, and nothing when the key has no marker or its
    trimmed span is empty: no key overwrites or removes another. *)
Theorem salvage_json_like_get (text : pystr) (idx : nat) (key : pystr) :
  EXPECTED_KEYS !! idx = Some key ->
  dict_get key (_salvage_json_like text) = salvaged_value text idx key.
Proof.
  intros Hk. unfold _salvage_json_like. destruct text as [|c text].
  - unfold salvaged_value, key_span. by rewrite key_pattern_not_in_empty.
  - rewrite (salvage_fold_own _ _ _ idx); [|compute_done|].
    + by destruct (salvaged_value (c :: text) idx key).
    + apply elem_of_lookup_imap. by exists idx, key.
Qed.

Lemma salvage_fold_keys text ks : forall result,
  (forall p, p ∈ ks -> p.2 ∉ dict_keys result) ->
  NoDup (map snd ks) ->
  exists added,
    dict_keys (fold_left (fun result '(idx, key) =>
                            salvage_key text result idx key) ks result)
    = dict_keys result ++ added
    /\ sublist added (map snd ks).
Proof.
  induction ks as [|[i a] ks IH]; intros result Hfresh Hnd; simpl.
  - exists []. by rewrite app_nil_r.
  - simpl in Hnd. apply NoDup_cons in Hnd as [Ha Hnd].
    assert (Ha' : a ∉ dict_keys result) by (apply (Hfresh (i, a)); by left).
    rewrite salvage_key_value.
    destruct (salvaged_value text i a) as [v|].
    + destruct (IH (dict_set a v result)) as (added & -> & Hsub); [|done|].
      * intros p Hp Hin. apply dict_keys_set in Hin as [Heq|Hin].
        -- apply Ha. rewrite <- Heq. apply list_elem_of_In, in_map_iff.
           exists p. split; [done|]. by apply list_elem_of_In.
        -- apply (Hfresh p); [by right | done].
      * exists (a :: added). rewrite dict_keys_set_absent.
        -- rewrite <- app_assoc. split; [done|]. by apply sublist_skip.
        -- destruct (dict_get a result) eqn:E; [|done].
           destruct Ha'. apply dict_get_Some_keys. by rewrite E.
    + destruct (IH result) as (added & -> & Hsub); [|done|].
      * intros p Hp. apply Hfresh. by right.
      * exists added. split; [done|]. by apply sublist_cons.
Qed.

(** The keys of the salvager's dictionary are expected keys, in the order
    of declaration and each at most once, wherever their markers stand in
    the text. *)
Theorem salvage_json_like_key_order (text : pystr) :
  sublist (dict_keys (_salvage_json_like text)) EXPECTED_KEYS
  /\ NoDup (dict_keys (_salvage_json_like text)).
Proof.
  assert (Hs : sublist (dict_keys (_salvage_json_like text)) EXPECTED_KEYS).
  { unfold _salvage_json_like. destruct text as [|c text].
    - apply sublist_nil_l.
    - destruct (salvage_fold_keys (c :: text) (imap pair EXPECTED_KEYS) [])
        as (added & -> & Hsub); [by intros p _ ?%elem_of_nil | compute_done |].
      exact Hsub. }
  split; [exact Hs|].
  apply (sublist_NoDup _ EXPECTED_KEYS); [compute_done | exact Hs].
Qed.

(** The span of a key found lies inside the text, after the marker: the
    slice of line 154 is never taken backwards or past the end. *)
Theorem key_span_bounds (text : pystr) (idx : nat) (key : pystr)
    (start end_ : nat) :
  key_span text idx key = Some (start, end_) ->
  length key + 3 <= start /\ start <= end_ /\ end_ <= length text.
Proof.
  unfold key_span. set (later := drop (S idx) EXPECTED_KEYS).
  destruct (re_search (key_pattern key) text) as [m|] eqn:E; [|done].
  intros [= <- <-].
  apply re_search_Some in E as (_ & _ & pre & u & Hs & _ & Hend & Hl).
  apply lang_key_pattern in Hl as (ws & -> & _).
  assert (Hlen : length text = m_end m + length (drop (m_end m) text)).
  { rewrite Hs at 1. rewrite !length_app. lia. }
  split.
  { rewrite Hend. unfold marker. rewrite !length_app. simpl. lia. }
  destruct (span_end_spec text (m_end m) later)
    as [[-> _]|(n & k & m' & _ & Hm & -> & _)]; [lia|].
  apply re_search_Some in Hm as ((pre' & u' & rest' & Hd & Hp & _) & _).
  rewrite Hd, !length_app in Hlen. lia.
Qed.

Lemma salvage_json_like_get_witness :
  EXPECTED_KEYS !! 4 = Some (py "mvp_plan")
  /\ dict_get (py "mvp_plan") (_salvage_json_like fragment_text)
     = Some (VList [VStr (py "one"); VStr (py "two")]).
Proof.
  split; [reflexivity|].
  rewrite (salvage_json_like_get fragment_text 4 (py "mvp_plan") eq_refl).
  by vm_compute.
Defined.

Lemma key_span_bounds_witness :
  key_span fragment_text 4 (py "mvp_plan") = Some (35, 50)
  /\ length (py "mvp_plan") + 3 <= 35 /\ 35 <= 50
  /\ 50 <= length fragment_text.
Proof.
  split; [reflexivity|].
  exact (key_span_bounds fragment_text 4 (py "mvp_plan") 35 50 eq_refl).
Defined.

(** ** The extractor's brace scan and trimming *)

Lemma brace_depth_app s t :
  brace_depth (s ++ t) = (brace_depth s + brace_depth t)%Z.
Proof. induction s as [|c s IH]; simpl; [done|]. rewrite IH. lia. Qed.

Lemma scan_braces_spec s : forall i depth e,
  (1 <= depth)%Z ->
  scan_braces s i depth = Some e ->
  exists u rest,
    s = u ++ [125%N] ++ rest
    /\ e = i + length u
    /\ (depth + brace_depth u = 1)%Z
    /\ (forall p q, u = p ++ q -> (1 <= depth + brace_depth p)%Z).
Proof.
  induction s as [|ch s IH]; intros i depth e Hd; simpl; [done|].
  destruct (N.eqb_spec ch 123) as [->|Hopen].
  - intros H. assert (Hd' : (1 <= depth + 1)%Z) by lia.
    destruct (IH _ _ _ Hd' H) as (u & rest & -> & -> & Hb & Hp).
    exists (123%N :: u), rest. simpl. repeat split; [lia..|].
    intros [|c p] q Hq; simpl in *; [lia|].
    injection Hq as <- Hq. specialize (Hp _ _ Hq). simpl. lia.
  - destruct (N.eqb_spec ch 125) as [->|Hclose].
    + destruct (Z.eqb_spec (depth - 1) 0) as [H0|H0].
      * intros [= <-]. exists [], s. simpl. repeat split; [lia..|].
        intros [|c p] q Hq; simpl in *; [lia | done].
      * intros H. assert (Hd' : (1 <= depth - 1)%Z) by lia.
        destruct (IH _ _ _ Hd' H) as (u & rest & -> & -> & Hb & Hp).
        exists (125%N :: u), rest. simpl. repeat split; [lia..|].
        intros [|c p] q Hq; simpl in *; [lia|].
        injection Hq as <- Hq. specialize (Hp _ _ Hq). simpl. lia.
    + intros H. destruct (IH _ _ _ Hd H) as (u & rest & -> & -> & Hb & Hp).
      exists (ch :: u), rest. simpl.
      destruct (N.eqb_spec ch 123); [done|]. destruct (N.eqb_spec ch 125); [done|].
      repeat split; [lia..|].
      intros [|c p] q Hq; simpl in *; [lia|].
      injection Hq as <- Hq. specialize (Hp _ _ Hq).
      destruct (N.eqb_spec ch 123); [done|]. destruct (N.eqb_spec ch 125); [done|].
      lia.
Qed.

Lemma find_from_cons sub c s i :
  find_from sub (c :: s) i
  = if starts_with sub (c :: s) then Some i else find_from sub s (S i).
Proof. done. Qed.

Lemma find_brace_spec s : forall i start,
  find_from [123%N] s i = Some start ->
  exists pre rest,
    s = pre ++ [123%N] ++ rest /\ start = i + length pre /\ (123%N ∉ pre).
Proof.
  induction s as [|c s IH]; intros i start; [done|].
  rewrite find_from_cons. cbn [starts_with]. rewrite andb_true_r.
  destruct (N.eqb_spec 123 c) as [<-|Hne].
  - intros [= <-]. exists [], s. rewrite Nat.add_0_r.
    repeat split. apply not_elem_of_nil.
  - intros H. destruct (IH _ _ H) as (pre & rest & -> & -> & Hpre).
    exists (c :: pre), rest. simpl. rewrite Nat.add_succ_r.
    repeat split. apply not_elem_of_cons. split; [congruence | done].
Qed.

(** The region the brace scan takes starts at the first opening brace of
    the text and ends at the first closing brace that brings the nesting
    depth back to zero: it is balanced, and every part of it that stops
    short of its last brace is still open. *)
Theorem balanced_region_spec (text c : pystr) :
  balanced_region text = Some c ->
  exists pre inner post,
    text = pre ++ c ++ post
    /\ (123%N ∉ pre)
    /\ c = [123%N] ++ inner ++ [125%N]
    /\ brace_depth c = 0%Z
    /\ (forall p q, c = p ++ q -> p <> [] -> q <> [] ->
          (1 <= brace_depth p)%Z).
Proof.
  unfold balanced_region, find. change (py "{") with [123%N].
  destruct (find_from [123%N] text 0) as [start|] eqn:Ef; [|done].
  destruct (find_brace_spec _ _ _ Ef) as (pre & rest & -> & -> & Hpre).
  simpl. rewrite drop_app_length. cbn [app scan_braces N.eqb Pos.eqb].
  change (0 + 1)%Z with 1%Z.
  destruct (scan_braces rest (S (length pre)) 1) as [e|] eqn:Es; [|done].
  assert (H1 : (1 <= 1)%Z) by lia.
  destruct (scan_braces_spec _ _ _ _ H1 Es)
    as (u & post & -> & -> & Hb & Hp).
  assert (Hc : slice (length pre) (S (length pre) + length u + 1)
                 (pre ++ 123%N :: u ++ [125%N] ++ post)
               = [123%N] ++ u ++ [125%N]).
  { unfold slice. rewrite drop_app_length.
    replace (123%N :: u ++ [125%N] ++ post)
      with (([123%N] ++ u ++ [125%N]) ++ post)
      by (simpl; by rewrite <- app_assoc).
    apply take_app_length'. rewrite !length_app. simpl. lia. }
  rewrite Hc. intros [= <-]. exists pre, u, post. repeat split;
    [simpl; by rewrite <- app_assoc | done | |].
  - change (brace_depth (123%N :: u ++ [125%N]) = 0%Z). cbn [brace_depth].
    rewrite brace_depth_app. simpl. lia.
  - intros [|x p] q Hq Hpne Hqne; [done|]. simpl in Hq. injection Hq as <- Hq.
    simpl.
    assert (Hpre' : exists q', u = p ++ q').
    { destruct (exists_last Hqne) as (q0 & y & ->).
      rewrite app_assoc in Hq. apply app_inj_tail in Hq as [Hu _].
      by exists q0. }
    destruct Hpre' as [q' ->]. specialize (Hp _ _ eq_refl). lia.
Qed.

Lemma drop_while_app_all p ws s :
  Forall (fun c => p c = true) ws -> drop_while p (ws ++ s) = drop_while p s.
Proof. induction 1 as [|c ws Hc _ IH]; simpl; [done|]. by rewrite Hc. Qed.

Lemma rstrip_by_all p ws :
  Forall (fun c => p c = true) ws -> rstrip_by p ws = [].
Proof. induction 1 as [|c ws Hc _ IH]; simpl; [done|]. by rewrite IH, Hc. Qed.

Lemma rstrip_by_app p a b :
  rstrip_by p (a ++ b)
  = match rstrip_by p b with
    | [] => rstrip_by p a
    | r => a ++ r
    end.
Proof.
  induction a as [|c a IH]; simpl.
  - by destruct (rstrip_by p b).
  - rewrite IH. destruct (rstrip_by p b) as [|x r]; [done|].
    by destruct a.
Qed.

Lemma strip_by_padding p ws1 ws2 s :
  Forall (fun c => p c = true) ws1 ->
  Forall (fun c => p c = true) ws2 ->
  strip_by p (ws1 ++ s ++ ws2) = strip_by p s.
Proof.
  intros H1 H2. unfold strip_by, lstrip_by.
  rewrite app_assoc, rstrip_by_app, (rstrip_by_all _ _ H2).
  rewrite rstrip_by_app. destruct (rstrip_by p s) as [|x r] eqn:E.
  - by rewrite (rstrip_by_all _ _ H1).
  - by rewrite drop_while_app_all.
Qed.

Section ExtractorMore.
Context {RT : Runtime}.

(** White space before and after the model's text changes nothing to what
    the extractor returns or raises. *)
Theorem extract_json_ignores_padding (ws1 ws2 text : pystr) :
  all_space ws1 -> all_space ws2 ->
  _extract_json (ws1 ++ text ++ ws2) = _extract_json text.
Proof.
  intros H1 H2. unfold _extract_json, strip.
  by rewrite strip_by_padding.
Qed.
End ExtractorMore.

Lemma balanced_region_spec_witness :
  balanced_region noisy_text = Some (pyq "{'a': {'b': 1}, 'c': 2}")
  /\ brace_depth (pyq "{'a': {'b': 1}, 'c': 2}") = 0%Z.
Proof.
  split; [reflexivity|].
  destruct (balanced_region_spec noisy_text (pyq "{'a': {'b': 1}, 'c': 2}")
              eq_refl) as (_ & _ & _ & _ & _ & _ & Hd & _).
  exact Hd.
Defined.

Lemma extract_json_ignores_padding_witness :
  all_space (py "  ") /\ all_space [10%N]
  /\ _extract_json (RT := demo_runtime) (py "  " ++ py "[1]" ++ [10%N])
     = _extract_json (RT := demo_runtime) (py "[1]").
Proof.
  assert (H1 : all_space (py "  ")) by (by repeat constructor).
  assert (H2 : all_space [10%N]) by (by repeat constructor).
  split; [exact H1|]. split; [exact H2|].
  exact (extract_json_ignores_padding (RT := demo_runtime) _ _ _ H1 H2).
Defined.

(** ** The route [/analyze] *)

Lemma strip_by_all p ws :
  Forall (fun c => p c = true) ws -> strip_by p ws = [].
Proof. intros H. unfold strip_by. by rewrite rstrip_by_all. Qed.

Lemma request_idea_blank body : blank_request body -> request_idea body = Ok [].
Proof.
  unfold request_idea.
  intros [->|[(v & -> & Hv)|(d & -> & Hd)]]; [done | by rewrite Hv |].
  destruct d as [|kv d]; [done|]. cbn [truthy].
  destruct Hd as [->|[(v & -> & Hv)|(s & -> & Hs)]]; simpl.
  - done.
  - by rewrite Hv.
  - destruct s as [|c s]; [done|]. unfold strip. by rewrite strip_by_all.
Qed.

Section RouteProps.
Context {RT : Runtime}.
Variable response_text : Z -> pystr.

(** A request without a usable idea is answered 400 at once: nothing is
    sent to the service and no object is created. *)
Theorem analyze_route_rejects_blank (body : option pyval) (w : world) :
  blank_request body ->
  analyze response_text body w
  = (Ok (error_response 400 (py "Please enter a project idea.")), w).
Proof.
  intros Hb. unfold analyze.
  erewrite bind_Ok by (by rewrite (request_idea_blank _ Hb)).
  done.
Qed.

(** For a request with an idea the handler never raises, and it leaves
    the state as the orchestrator left it.  It answers 200 only when the
    orchestrator has returned a complete result and [jsonify] has written
    it, the body being that document.  When the orchestrator raises, or
    [jsonify] does on the result it returned, the answer is what the
    [except] clauses make of the exception: an error object with status
    502 or 500. *)
Theorem analyze_route_always_answers (body : option pyval) (idea : pystr)
    (w : world) :
  request_idea body = Ok idea ->
  idea <> [] ->
  exists r,
    analyze response_text body w = (Ok r, snd (analyze_project_idea idea w))
    /\ ((exists l d document,
           fst (analyze_project_idea idea w) = Ok l
           /\ heap (snd (analyze_project_idea idea w)) !! l = Some (VDict d)
           /\ complete_result d
           /\ jsonify (VDict d) = Ok document
           /\ r = {| status_code := 200; json_body := document |})
        \/ (exists e,
              (fst (analyze_project_idea idea w) = Raise e
               \/ exists l d,
                    fst (analyze_project_idea idea w) = Ok l
                    /\ heap (snd (analyze_project_idea idea w)) !! l
                       = Some (VDict d)
                    /\ complete_result d
                    /\ jsonify (VDict d) = Raise e)
              /\ r = error_handler response_text e
              /\ (status_code r = 502%Z \/ status_code r = 500%Z)
              /\ exists message,
                   json_body r = VDict [(py "error", VStr message)])).
Proof.
  intros Hi Hne. unfold analyze.
  erewrite bind_Ok by (by rewrite Hi).
  destruct idea as [|c idea]; [done|]. unfold try_except, mbind, M_bind.
  assert (Hh : forall e,
            (status_code (error_handler response_text e) = 502%Z
             \/ status_code (error_handler response_text e) = 500%Z)
            /\ exists message,
                 json_body (error_handler response_text e)
                 = VDict [(py "error", VStr message)]).
  { intros e. split; destruct e; simpl; eauto. }
  destruct (analyze_project_idea (c :: idea) w) as [[l|e] w'] eqn:E.
  - destruct (analyze_Ok_inv _ _ _ _ E) as (d & Hd & Hc).
    unfold deref. rewrite Hd. unfold lift_res. cbn [fst snd].
    destruct (jsonify (VDict d)) as [document|e] eqn:Ej.
    + eexists. split; [done|]. left. by exists l, d, document.
    + eexists. split; [done|]. right. exists e.
      split; [right; by exists l, d|]. split; [done|]. apply Hh.
  - eexists. split; [done|]. right. exists e.
    split; [by left|]. split; [done|]. apply Hh.
Qed.

(** What the user sees of a transport failure of the first call: an error
    status of the service is answered 502, and a network failure or a
    timeout is answered 500, after that single call. *)
Theorem analyze_route_transport_status (body : option pyval) (idea : pystr)
    (w : world) (a : http_result) (rest : list http_result) (e : exn) :
  request_idea body = Ok idea ->
  idea <> [] ->
  GEMINI_API_KEY <> [] ->
  upstream w = a :: rest ->
  transport_failure a = Some e ->
  exists r,
    analyze response_text body w = (Ok r, after_call (request_1 idea) w)
    /\ status_code r = match a with
                       | NetworkFailure => 500%Z
                       | Response _ _ => 502%Z
                       end.
Proof.
  intros Hi Hne Hkey Hu Ha. unfold analyze.
  erewrite bind_Ok by (by rewrite Hi).
  destruct idea as [|c idea]; [done|]. unfold try_except.
  assert (Hrun : analyze_project_idea (c :: idea) w
                 = (Raise e, after_call (request_1 (c :: idea)) w)).
  { unfold analyze_project_idea.
    destruct GEMINI_API_KEY as [|k key]; [done|].
    by erewrite bind_Raise by (by eapply call_gemini_transport). }
  erewrite bind_Raise by exact Hrun.
  eexists. split; [done|].
  destruct a as [|st b]; simpl in Ha.
  - by injection Ha as <-.
  - destruct (is_error_status st); [|done]. by injection Ha as <-.
Qed.
End RouteProps.

Lemma analyze_route_rejects_blank_witness :
  blank_request (Some (VDict [(py "idea", VStr (py "   "))]))
  /\ analyze (RT := demo_runtime) demo_response_text
       (Some (VDict [(py "idea", VStr (py "   "))])) first_call_fails
     = (Ok (error_response 400 (py "Please enter a project idea.")),
        first_call_fails).
Proof.
  assert (Hb : blank_request (Some (VDict [(py "idea", VStr (py "   "))]))).
  { right. right. eexists. split; [done|]. right. right.
    eexists. split; [done|]. by repeat constructor. }
  split; [exact Hb|].
  exact (analyze_route_rejects_blank (RT := demo_runtime) demo_response_text
           _ first_call_fails Hb).
Defined.

Lemma analyze_route_always_answers_witness :
  request_idea demo_request = Ok (py "a todo app")
  /\ (exists r w',
        analyze (RT := demo_runtime) demo_response_text demo_request
          json_list_answer = (Ok r, w')
        /\ status_code r = 500%Z)
  /\ (exists r w' l,
        analyze (RT := demo_runtime) demo_response_text demo_request
          long_integer_answer = (Ok r, w')
        /\ fst (analyze_project_idea (RT := demo_runtime) (py "a todo app")
                  long_integer_answer) = Ok l
        /\ status_code r = 502%Z).
Proof.
  assert (Hne : py "a todo app" <> []) by done.
  split; [reflexivity|]. split.
  - destruct (analyze_route_always_answers (RT := demo_runtime)
                demo_response_text demo_request (py "a todo app")
                json_list_answer eq_refl Hne) as (r & Hrun & _).
    exists r. eexists. split; [exact Hrun|].
    vm_compute in Hrun. by injection Hrun as <-.
  - destruct (analyze_route_always_answers (RT := demo_runtime)
                demo_response_text demo_request (py "a todo app")
                long_integer_answer eq_refl Hne) as (r & Hrun & _).
    exists r. eexists. exists 0. split; [exact Hrun|]. split; [by vm_compute|].
    vm_compute in Hrun. by injection Hrun as <-.
Defined.

Lemma analyze_route_transport_status_witness :
  exists r,
    analyze (RT := demo_runtime) demo_response_text demo_request
      first_call_fails
    = (Ok r, after_call (request_1 (py "a todo app")) first_call_fails)
    /\ status_code r = 502%Z.
Proof.
  assert (Hne : py "a todo app" <> []) by done.
  assert (Hkey : GEMINI_API_KEY (Runtime := demo_runtime) <> []) by done.
  exact (analyze_route_transport_status (RT := demo_runtime)
           demo_response_text demo_request (py "a todo app") first_call_fails
           (Response 503 None) _ (HTTPError 503)
           eq_refl Hne Hkey eq_refl eq_refl).
Defined.
